(** * myftpserver: a shallow embedding of [myftpserver.py]

    The session loop [handle_connected_client] and its helpers are embedded
    as functions in a small state-and-exception monad over a model of the
    process' surroundings: a file system without links and a working
    directory, the peers a data connection can meet, and the replies
    written to the control connection.

    Python [str] values are [string]s whose characters are read as code
    points below 256.  [os.path] is the POSIX flavour ([posixpath]). *)

From Stdlib Require Import String Ascii List Bool ZArith Lia.
Import ListNotations.
Open Scope string_scope.
Open Scope Z_scope.

(** ** Python string primitives *)

Module PyStr.

Definition code (c : ascii) : nat := nat_of_ascii c.

(** [str.isspace] on one character, also the class [\s] of [re]. *)
Definition is_space (c : ascii) : bool :=
  let n := code c in
  ((9 <=? n) && (n <=? 13) || (28 <=? n) && (n <=? 32)
   || (n =? 133) || (n =? 160))%nat.

(** The class [[A-Z]]. *)
Definition is_upper (c : ascii) : bool :=
  let n := code c in ((65 <=? n) && (n <=? 90))%nat.

Definition is_digit (c : ascii) : bool :=
  let n := code c in ((48 <=? n) && (n <=? 57))%nat.

Definition LF : ascii := ascii_of_nat 10.
Definition CR : ascii := ascii_of_nat 13.
Definition CRLF : string := String CR (String LF "").

Definition is_empty (s : string) : bool :=
  match s with "" => true | _ => false end.

Fixpoint lstrip (s : string) : string :=
  match s with
  | "" => ""
  | String c r => if is_space c then lstrip r else s
  end.

Fixpoint rstrip (s : string) : string :=
  match s with
  | "" => ""
  | String c r =>
      let r' := rstrip r in
      if is_space c && is_empty r' then "" else String c r'
  end.

(** [s.strip()] *)
Definition strip (s : string) : string := rstrip (lstrip s).

(** [s.startswith(p)] *)
Definition startswith (p s : string) : bool := String.prefix p s.

Fixpoint last_char (s : string) : option ascii :=
  match s with
  | "" => None
  | String c "" => Some c
  | String _ r => last_char r
  end.

(** [s.endswith("/")] and the like, for a one character suffix. *)
Definition endswith_char (c : ascii) (s : string) : bool :=
  match last_char s with
  | Some d => Ascii.eqb c d
  | None => false
  end.

(** [s[1:]] *)
Definition tail (s : string) : string :=
  match s with "" => "" | String _ r => r end.

(** [s[:1]] *)
Definition head (s : string) : string :=
  match s with "" => "" | String c _ => String c "" end.

Fixpoint drop (n : nat) (s : string) : string :=
  match n, s with
  | O, _ => s
  | S n', String _ r => drop n' r
  | S _, "" => ""
  end.

(** [needle in hay] *)
Fixpoint contains (needle hay : string) : bool :=
  String.prefix needle hay
  || match hay with
     | "" => false
     | String _ r => contains needle r
     end.

(** [s.removeprefix(p)] *)
Definition removeprefix (p s : string) : string :=
  if String.prefix p s then drop (String.length p) s else s.

(** [x in xs] for a list of strings *)
Definition mem (x : string) (xs : list string) : bool :=
  existsb (String.eqb x) xs.

(** [sep.join(xs)] *)
Fixpoint join (sep : string) (xs : list string) : string :=
  match xs with
  | [] => ""
  | [x] => x
  | x :: r => x ++ sep ++ join sep r
  end.

(** [s.split(c)] for a one character separator: never the empty list. *)
Fixpoint split (c : ascii) (s : string) : list string :=
  match s with
  | "" => [""]
  | String d r =>
      if Ascii.eqb c d then "" :: split c r
      else match split c r with
           | [] => [String d ""]
           | x :: xs => String d x :: xs
           end
  end.

(** Digits with single underscores between them, as [int] reads them. *)
Fixpoint digits (acc : Z) (after_digit : bool) (s : string) : option Z :=
  match s with
  | "" => if after_digit then Some acc else None
  | String c r =>
      if is_digit c then digits (10 * acc + Z.of_nat (code c - 48)) true r
      else if Ascii.eqb c "_" && after_digit then digits acc false r
      else None
  end.

(** [int(s)]: surrounding white space, an optional sign, decimal digits.
    [None] stands for [ValueError]. *)
Definition int (s : string) : option Z :=
  match strip s with
  | String "-" r => option_map Z.opp (digits 0 false r)
  | String "+" r => digits 0 false r
  | r => digits 0 false r
  end.

End PyStr.

(** ** The command pattern

    [re.findall('^[A-Z]{3,4}(?=\s?)|(?<=\s).+', message)] *)

Module Pattern.
Import PyStr.

(** First alternative, [^[A-Z]{3,4}(?=\s?)]: three upper case letters at
    the very start, a fourth one when it is there (the quantifier is
    greedy, the look-ahead accepts anything).  Gives the match and the
    text after it. *)
Definition match_verb (s : string) : option (string * string) :=
  match s with
  | String a (String b (String c r)) =>
      if is_upper a && is_upper b && is_upper c then
        match r with
        | String d r' =>
            if is_upper d
            then Some (String a (String b (String c (String d ""))), r')
            else Some (String a (String b (String c "")), r)
        | "" => Some (String a (String b (String c "")), "")
        end
      else None
  | _ => None
  end.

(** [.+]: the run up to the next line feed. *)
Fixpoint take_line (s : string) : string :=
  match s with
  | "" => ""
  | String c r => if Ascii.eqb c LF then "" else String c (take_line r)
  end.

(** Second alternative, [(?<=\s).+], tried at every position after the
    first: [prev] is the character before the position, [inside] tells
    that the position is covered by a match already reported. *)
Fixpoint scan (inside : bool) (prev : ascii) (s : string) : list string :=
  match s with
  | "" => []
  | String c r =>
      if Ascii.eqb c LF then scan false c r
      else if inside then scan true c r
      else if is_space prev then take_line s :: scan true c r
      else scan false c r
  end.

Definition findall (message : string) : list string :=
  match match_verb message with
  | Some (verb, rest) =>
      verb :: match last_char verb with
              | Some c => scan false c rest
              | None => []
              end
  | None =>
      match message with
      | "" => []
      | String c r => scan false c r
      end
  end.

End Pattern.

(** ** [posixpath.join] *)

Module PosixPath.
Import PyStr.

(** One round of the loop of [join]: a component that starts with the
    separator replaces what was built so far. *)
Definition join_step (path b : string) : string :=
  if startswith "/" b then b
  else if is_empty path || endswith_char "/" path then path ++ b
  else path ++ "/" ++ b.

(** [os.path.join(a, *p)] *)
Definition join (a : string) (p : list string) : string :=
  fold_left join_step p a.

End PosixPath.

(** ** The surroundings of the process *)

(** The exceptions the embedded code can meet. Only the class matters:
    an [except] clause selects by class, and none of the clauses of
    [myftpserver.py] names a base class. *)
Inductive exn : Type :=
| ConnectionRefusedError
| ConnectionResetError
| FileNotFoundError
| NotADirectoryError
| IsADirectoryError
| OSError
| OverflowError
| TypeError
| IndexError
| ValueError
| UnicodeDecodeError.

(** A file system without links: every entry sits at its canonical list of
    names below [/]; the root itself is a directory that needs no entry. *)
Module Fs.
Import PyStr.

Definition dirpath := list string.

Inductive entry : Type :=
| EFile (data : list Byte.byte)
| EDir.

Definition filesystem := list (dirpath * entry).

Definition same (p q : dirpath) : bool :=
  if list_eq_dec string_dec p q then true else false.

Fixpoint lookup (fs : filesystem) (p : dirpath) : option entry :=
  match fs with
  | [] => None
  | (q, e) :: r => if same p q then Some e else lookup r p
  end.

Definition unlink (fs : filesystem) (p : dirpath) : filesystem :=
  filter (fun qe => negb (same p (fst qe))) fs.

Definition write (fs : filesystem) (p : dirpath) (data : list Byte.byte)
  : filesystem :=
  (p, EFile data) :: unlink fs p.

(** Path resolution, one name at a time: a name is looked up in a
    directory only; the empty name and [.] stay, [..] goes up (and stays
    at the root). *)
Fixpoint walk (fs : filesystem) (cur : dirpath) (e : entry)
         (names : list string) : exn + (dirpath * entry) :=
  match names with
  | [] => inr (cur, e)
  | n :: rest =>
      match e with
      | EFile _ => inl NotADirectoryError
      | EDir =>
          if is_empty n || String.eqb n "." then walk fs cur EDir rest
          else if String.eqb n ".." then walk fs (removelast cur) EDir rest
          else match lookup fs (cur ++ [n])%list with
               | None => inl FileNotFoundError
               | Some e' => walk fs (cur ++ [n])%list e' rest
               end
      end
  end.

Definition start (cwd : dirpath) (path : string) : dirpath :=
  if startswith "/" path then [] else cwd.

Definition resolve (fs : filesystem) (cwd : dirpath) (path : string)
  : exn + (dirpath * entry) :=
  if is_empty path then inl FileNotFoundError
  else walk fs (start cwd path) EDir (split "/" path).

(** The target of [open(path, 'wb')]: the directory part must resolve,
    the last name must not be a directory. *)
Definition creatable (fs : filesystem) (cwd : dirpath) (path : string)
  : exn + dirpath :=
  if is_empty path then inl FileNotFoundError
  else
    let names := split "/" path in
    match walk fs (start cwd path) EDir (removelast names) with
    | inl e => inl e
    | inr (_, EFile _) => inl NotADirectoryError
    | inr (dir, EDir) =>
        let n := last names "" in
        if is_empty n || String.eqb n "." || String.eqb n ".."
        then inl IsADirectoryError
        else match lookup fs (dir ++ [n])%list with
             | Some EDir => inl IsADirectoryError
             | _ => inr (dir ++ [n])%list
             end
    end.

(** Whether [path] names a regular file: a path that does not resolve
    names none. *)
Definition isfile (fs : filesystem) (cwd : dirpath) (path : string) : bool :=
  match resolve fs cwd path with
  | inr (_, EFile _) => true
  | _ => false
  end.

(** The text [os.getcwd] gives for a directory. *)
Definition render (p : dirpath) : string :=
  match p with
  | [] => "/"
  | _ => String.concat "" (map (fun n => "/" ++ n) p)
  end.

End Fs.

(** What a connection attempt to an address meets. *)
Inductive peer : Type :=
| Listening (upload : list (list Byte.byte))
    (* accepts; the chunks its side will send before it closes *)
| Refusing       (* [ConnectionRefusedError] *)
| Unreachable.   (* no route to the host: a plain [OSError] *)

(** A connected data socket. *)
Record socket : Type := mkSocket {
  peer_host : string;
  peer_port : Z;
  incoming : list (list Byte.byte)
}.

Record world : Type := mkWorld {
  fs : Fs.filesystem;
  cwd : Fs.dirpath;                 (* the working directory of the process *)
  net : string -> Z -> peer;
  dialed : list (string * Z);       (* addresses a connection was tried to *)
  sent : list (string * Z * list Byte.byte);  (* data sent, per connection *)
  replies : list string;            (* messages given to [send_message] *)
  cnx_closed : bool                 (* the control connection *)
}.

Definition set_fs (f : Fs.filesystem) (w : world) : world :=
  mkWorld f (cwd w) (net w) (dialed w) (sent w) (replies w) (cnx_closed w).
Definition set_cwd (d : Fs.dirpath) (w : world) : world :=
  mkWorld (fs w) d (net w) (dialed w) (sent w) (replies w) (cnx_closed w).
Definition add_dial (x : string * Z) (w : world) : world :=
  mkWorld (fs w) (cwd w) (net w) (dialed w ++ [x])%list (sent w) (replies w)
          (cnx_closed w).
Definition add_sent (x : string * Z * list Byte.byte) (w : world) : world :=
  mkWorld (fs w) (cwd w) (net w) (dialed w) (sent w ++ [x])%list (replies w)
          (cnx_closed w).
Definition add_reply (m : string) (w : world) : world :=
  mkWorld (fs w) (cwd w) (net w) (dialed w) (sent w) (replies w ++ [m])%list
          (cnx_closed w).
Definition set_closed (w : world) : world :=
  mkWorld (fs w) (cwd w) (net w) (dialed w) (sent w) (replies w) true.

(** ** The monad: a world threaded through, an exception or a value out *)

Definition M (A : Type) : Type := world -> world * (exn + A).

Definition ret {A} (a : A) : M A := fun w => (w, inr a).
Definition raise {A} (e : exn) : M A := fun w => (w, inl e).
Definition bind {A B} (m : M A) (k : A -> M B) : M B :=
  fun w => match m w with
           | (w', inl e) => (w', inl e)
           | (w', inr a) => k a w'
           end.
(** [try: m], with the outcome handed to the code after it. *)
Definition attempt {A} (m : M A) : M (exn + A) :=
  fun w => match m w with (w', r) => (w', inr r) end.
Definition get {A} (f : world -> A) : M A := fun w => (w, inr (f w)).
Definition modify (f : world -> world) : M unit := fun w => (f w, inr tt).

Declare Scope monad_scope.
Delimit Scope monad_scope with monad.
Notation "x <- m ;; k" := (bind m (fun x => k))
  (at level 61, m at next level, right associativity) : monad_scope.
Notation "m ;; k" := (bind m (fun _ => k))
  (at level 61, right associativity) : monad_scope.
Open Scope monad_scope.

(** ** Operating system calls *)

Module Os.
Import PyStr.

(** [os.path.isfile(path)] *)
Definition isfile (path : string) : M bool :=
  get (fun w => Fs.isfile (fs w) (cwd w) path).

(** [os.chdir(path)] *)
Definition chdir (path : string) : M unit :=
  w <- get (fun w => w) ;;
  match Fs.resolve (fs w) (cwd w) path with
  | inl e => raise e
  | inr (_, Fs.EFile _) => raise NotADirectoryError
  | inr (d, Fs.EDir) => modify (set_cwd d)
  end.

(** [os.getcwd()] *)
Definition getcwd : M string := get (fun w => Fs.render (cwd w)).

(** [os.remove(path)] *)
Definition remove (path : string) : M unit :=
  w <- get (fun w => w) ;;
  match Fs.resolve (fs w) (cwd w) path with
  | inl e => raise e
  | inr (_, Fs.EDir) => raise IsADirectoryError
  | inr (p, Fs.EFile _) => modify (set_fs (Fs.unlink (fs w) p))
  end.

(** [open(path, 'rb')] and the whole content read from it. *)
Definition read_file (path : string) : M (list Byte.byte) :=
  w <- get (fun w => w) ;;
  match Fs.resolve (fs w) (cwd w) path with
  | inl e => raise e
  | inr (_, Fs.EDir) => raise IsADirectoryError
  | inr (_, Fs.EFile data) => ret data
  end.

(** [open(path, 'wb')]: the file is there and empty afterwards. *)
Definition open_wb (path : string) : M Fs.dirpath :=
  w <- get (fun w => w) ;;
  match Fs.creatable (fs w) (cwd w) path with
  | inl e => raise e
  | inr p => modify (set_fs (Fs.write (fs w) p [])) ;; ret p
  end.

(** What the [write] calls on the open file leave in it. *)
Definition write_all (p : Fs.dirpath) (data : list Byte.byte) : M unit :=
  modify (fun w => set_fs (Fs.write (fs w) p data) w).

(** [socket.connect((host, port))] on a fresh socket. *)
Definition connect (host : string) (port : Z) : M socket :=
  if (port <? 0) || (65535 <? port) then raise OverflowError
  else
    modify (add_dial (host, port)) ;;
    p <- get (fun w => net w host port) ;;
    match p with
    | Listening upload => ret (mkSocket host port upload)
    | Refusing => raise ConnectionRefusedError
    | Unreachable => raise OSError
    end.

(** [data_socket.sendfile(file)] *)
Definition sendfile (s : socket) (data : list Byte.byte) : M unit :=
  modify (add_sent (peer_host s, peer_port s, data)).

(** The receive loop of an upload: chunks are written as they arrive, an
    empty one ends the loop (so does the end of what the peer sends:
    the peer has closed and [recv] gives the empty chunk). *)
Fixpoint received (chunks : list (list Byte.byte)) : list Byte.byte :=
  match chunks with
  | [] => []
  | [] :: _ => []
  | c :: r => (c ++ received r)%list
  end.

End Os.

(** ** The server *)

Module Server.
Import PyStr.

Definition SUPPORTED_COMMANDS : list string :=
  ["OPTS"; "USER"; "PASS"; "QUIT";
   "XPWD"; "CWD"; "DELE"; "PORT"; "RETR"; "STOR"].

(** The variables of [handle_connected_client] that live across rounds
    of its loop.  [data_socket] and [file_path] are written and read
    within one round only and are bound there. *)
Record session : Type := mkSession {
  username : option string;
  password : option string;
  client_info : option (list string);
  current_path : string;
  authenticated : bool;
  connected : bool
}.

Definition set_username (u : option string) (s : session) : session :=
  mkSession u (password s) (client_info s) (current_path s)
            (authenticated s) (connected s).
Definition set_password (p : option string) (s : session) : session :=
  mkSession (username s) p (client_info s) (current_path s)
            (authenticated s) (connected s).
Definition set_client_info (c : option (list string)) (s : session)
  : session :=
  mkSession (username s) (password s) c (current_path s)
            (authenticated s) (connected s).
Definition set_current_path (p : string) (s : session) : session :=
  mkSession (username s) (password s) (client_info s) p
            (authenticated s) (connected s).
Definition set_authenticated (b : bool) (s : session) : session :=
  mkSession (username s) (password s) (client_info s) (current_path s)
            b (connected s).
Definition set_connected (b : bool) (s : session) : session :=
  mkSession (username s) (password s) (client_info s) (current_path s)
            (authenticated s) b.

(** The locals as they are set before the loop. *)
Definition fresh : session := mkSession None None None "/" false true.

(** What [cnx.recv(BUFFER_SIZE)] gives in one round: bytes that decode to
    a text, a reset by the peer, or bytes that are not UTF-8. *)
Inductive recv_event : Type :=
| Received (text : string)
| Reset
| Undecodable.

Definition send_message (message : string) : M unit :=
  modify (add_reply message).

(** The bytes of one reply on the wire. *)
Definition wire (message : string) : string := message ++ CRLF.

Definition close_cnx : M unit := modify set_closed.

(** [xs[i]] *)
Definition item (xs : list string) (i : nat) : M string :=
  match nth_error xs i with
  | Some x => ret x
  | None => raise IndexError
  end.

Definition to_int (s : string) : M Z :=
  match int s with
  | Some z => ret z
  | None => raise ValueError
  end.

Definition connect_to_client (client_info : option (list string))
  : M (option socket) :=
  info <- match client_info with
          | None => raise TypeError       (* [None[:4]] *)
          | Some l => ret l
          end ;;
  let client_address := join "." (firstn 4 info) in
  a <- item info 4 ;;
  p1 <- to_int a ;;
  b <- item info 5 ;;
  p2 <- to_int b ;;
  let client_port := p1 * 256 + p2 in
  r <- attempt (Os.connect client_address client_port) ;;
  match r with
  | inr data_socket => ret (Some data_socket)
  | inl ConnectionRefusedError => ret None
  | inl e => raise e
  end.

Definition handle_unauthenticated : M bool :=
  send_message "530 Not logged in." ;;
  close_cnx ;;
  ret false.

Section WithRoot.

(** [BASE_PATH = os.getcwd()], taken once when the module is loaded. *)
Variable BASE_PATH : string.

(** The expression that builds [path] in CWD and [file_path] in DELE,
    RETR and STOR. *)
Definition resolve (current_path arg : string) : string :=
  if mem (head arg) ["/"; "\"]
  then PosixPath.join BASE_PATH [tail arg]
  else PosixPath.join BASE_PATH [tail current_path; arg].

Definition do_OPTS (s : session) (arg : string) : M session :=
  (if negb (startswith "UTF8" arg)
   then send_message "504 Command not implemented for that argument."
   else ret tt) ;;
  send_message "200 OK" ;;
  ret s.

Definition do_USER (s : session) (arg : string) : M session :=
  let s := set_username (Some arg) s in
  send_message "331 Username OK, need password." ;;
  ret s.

Definition is_guest (x : option string) : bool :=
  match x with
  | Some v => String.eqb v "guest"
  | None => false
  end.

Definition do_PASS (s : session) (arg : string) : M session :=
  let s := set_password (Some arg) s in
  if is_guest (username s) && is_guest (password s) then
    send_message "230 Login successful." ;;
    ret (set_authenticated true s)
  else
    let s := set_password None (set_username None s) in
    let s := set_authenticated false (set_connected false s) in
    send_message "530 Not logged in. Incorrect credentials." ;;
    close_cnx ;;
    ret s.

Definition do_QUIT (s : session) : M session :=
  send_message "221 Goodbye." ;;
  close_cnx ;;
  ret (set_authenticated false (set_connected false s)).

Definition do_XPWD (s : session) : M session :=
  send_message ("257 Current directory: " ++ current_path s) ;;
  ret s.

Definition do_CWD (s : session) (arg : string) : M session :=
  let path := resolve (current_path s) arg in
  r <- attempt (Os.chdir path) ;;
  match r with
  | inl FileNotFoundError | inl NotADirectoryError =>
      send_message ("550 " ++ arg ++ " is not a directory.") ;;
      ret s
  | inl e => raise e
  | inr _ =>
      navigating_path <- Os.getcwd ;;
      a <- (if negb (contains BASE_PATH navigating_path) then
              Os.chdir BASE_PATH ;;
              ret (BASE_PATH, set_current_path "/" s)
            else ret (navigating_path, s)) ;;
      let '(navigating_path, s) := a in
      let s := set_current_path
                 (if String.eqb navigating_path BASE_PATH then "/"
                  else removeprefix BASE_PATH navigating_path) s in
      send_message ("250 Changed directory: " ++ current_path s) ;;
      ret s
  end.

Definition do_DELE (s : session) (arg : string) : M session :=
  let file_path := resolve (current_path s) arg in
  isf <- Os.isfile file_path ;;
  if negb isf then
    send_message ("550 " ++ arg ++ " does not exist in "
                    ++ current_path s ++ " directory.") ;;
    ret s
  else
    Os.remove file_path ;;
    send_message ("250 " ++ arg ++ " deleted.") ;;
    ret s.

Definition do_PORT (s : session) (arg : string) : M session :=
  let s := set_client_info (Some (split "," arg)) s in
  send_message "200 Command successful." ;;
  ret s.

Definition do_RETR (s : session) (arg : string) : M session :=
  let file_path := resolve (current_path s) arg in
  isf <- Os.isfile file_path ;;
  if negb isf then
    send_message ("550 " ++ arg ++ " does not exist in "
                    ++ current_path s ++ " directory.") ;;
    ret s
  else
    data_socket <- connect_to_client (client_info s) ;;
    match data_socket with
    | None =>
        send_message "425 Can't open data connection." ;;
        ret s
    | Some data_socket =>
        send_message "150 File status okay; about to begin transfer." ;;
        file <- Os.read_file file_path ;;
        Os.sendfile data_socket file ;;
        let s := set_client_info None s in
        send_message ("250 Successfully transferred " ++ arg ++ ".") ;;
        ret s
    end.

Definition do_STOR (s : session) (arg : string) : M session :=
  let file_path := resolve (current_path s) arg in
  isf <- Os.isfile file_path ;;
  if isf then
    send_message ("553 Requested action not taken. " ++ arg
                    ++ " name already taken.") ;;
    ret s
  else
    data_socket <- connect_to_client (client_info s) ;;
    match data_socket with
    | None =>
        send_message "425 Can't open data connection." ;;
        ret s
    | Some data_socket =>
        send_message "150 File status okay; about to begin transfer." ;;
        file <- Os.open_wb file_path ;;
        Os.write_all file (Os.received (incoming data_socket)) ;;
        send_message ("250 Successfully transferred " ++ arg ++ ".") ;;
        ret s
    end.

(** [message = cnx.recv(BUFFER_SIZE).decode(ENCODING).strip()] *)
Definition recv_message (ev : recv_event) : M string :=
  match ev with
  | Received text => ret (strip text)
  | Reset => raise ConnectionResetError
  | Undecodable => raise UnicodeDecodeError
  end.

(** The commands below the [if not authenticated] test. *)
Definition dispatch_authenticated (s : session) (command arg : string)
  : M session :=
  if String.eqb command "XPWD" then do_XPWD s
  else if String.eqb command "CWD" then do_CWD s arg
  else if String.eqb command "DELE" then do_DELE s arg
  else if String.eqb command "PORT" then do_PORT s arg
  else if String.eqb command "RETR" then do_RETR s arg
  else if String.eqb command "STOR" then do_STOR s arg
  else ret s.

(** The chain of tests on [command], from the test for an unsupported
    command down. *)
Definition dispatch (s : session) (command arg : string) : M session :=
  if negb (mem command SUPPORTED_COMMANDS) then
    send_message "502 Command not implemented." ;;
    ret s
  else if String.eqb command "OPTS" then do_OPTS s arg
  else if String.eqb command "USER" then do_USER s arg
  else if String.eqb command "PASS" then do_PASS s arg
  else if String.eqb command "QUIT" then do_QUIT s
  else if negb (authenticated s) then
    c <- handle_unauthenticated ;;
    ret (set_connected c s)
  else dispatch_authenticated s command arg.

(** What one non-empty [message] does: the body of the loop after the
    test [if not message]. *)
Definition handle_message (s : session) (message : string) : M session :=
  let split_message := Pattern.findall message in
  command <- item split_message 0 ;;
  let arg := match nth_error split_message 1 with
             | Some a => strip a
             | None => ""
             end in
  dispatch s command arg.

(** One round of [while connected]. *)
Definition iteration (s : session) (ev : recv_event) : M session :=
  r <- attempt (recv_message ev) ;;
  match r with
  | inl ConnectionResetError =>
      close_cnx ;;
      ret (set_connected false s)
  | inl e => raise e
  | inr message =>
      if is_empty message then
        close_cnx ;;
        ret (set_connected false s)
      else handle_message s message
  end.

(** The loop, over what the control connection delivers.  When the
    deliveries end while the session is connected, the next [recv]
    blocks: the session stays as it is. *)
Fixpoint serve (s : session) (evs : list recv_event) : M session :=
  if connected s then
    match evs with
    | [] => ret s
    | ev :: rest => s' <- iteration s ev ;; serve s' rest
    end
  else ret s.

Definition handle_connected_client (evs : list recv_event) : M session :=
  send_message "220 Welcome to myFTPserver!" ;;
  serve fresh evs.

End WithRoot.

End Server.

(** ** Vocabulary for the statements *)

Module Reading.
Import PyStr Server.

(** The command and the argument the loop reads off a received text. *)
Definition verb_of (text : string) : option string :=
  nth_error (Pattern.findall (strip text)) 0.

Definition arg_of (text : string) : string :=
  match nth_error (Pattern.findall (strip text)) 1 with
  | Some a => strip a
  | None => ""
  end.

(** The address [connect_to_client] computes from what PORT stored. *)
Definition endpoint (info : list string) : option (string * Z) :=
  match nth_error info 4, nth_error info 5 with
  | Some a, Some b =>
      match int a, int b with
      | Some p1, Some p2 => Some (join "." (firstn 4 info), p1 * 256 + p2)
      | _, _ => None
      end
  | _, _ => None
  end.

Definition port_ok (port : Z) : bool := (0 <=? port) && (port <=? 65535).

(** [d] is the directory [root] or lies below it. *)
Fixpoint below (root d : Fs.dirpath) : bool :=
  match root, d with
  | [], _ => true
  | r :: root', x :: d' => String.eqb r x && below root' d'
  | _ :: _, [] => false
  end.

(** [p], with a separator after it unless it is empty or ends in one. *)
Definition with_sep (p : string) : string :=
  if is_empty p || endswith_char "/" p then p else p ++ "/".

(** The virtual path CWD shows for the directory [d] it accepted. *)
Definition shown_path (BASE_PATH : string) (d : Fs.dirpath) : string :=
  if String.eqb (Fs.render d) BASE_PATH then "/"
  else removeprefix BASE_PATH (Fs.render d).


(** The replies of the transfer commands that carry the argument. *)
Definition missing_reply (s : session) (arg : string) : string :=
  "550 " ++ arg ++ " does not exist in " ++ current_path s ++ " directory.".



(** The commands that need a login. *)
Definition GUARDED_COMMANDS : list string :=
  ["XPWD"; "CWD"; "DELE"; "PORT"; "RETR"; "STOR"].

(** The replies of [w'] are those of [w] and at most [n] more. *)
Definition grows (n : nat) (w w' : world) : Prop :=
  exists more,
    replies w' = (replies w ++ more)%list /\ (length more <= n)%nat.

(** What a round may do to the connected flag and the control connection:
    leave both, or take the flag down and close the connection. An
    exception leaves the connection as it is. *)
Definition keeps_or_closes (s : session) (w w' : world) (r : exn + session)
  : Prop :=
  match r with
  | inr s' =>
      (connected s' = connected s /\ cnx_closed w' = cnx_closed w)
      \/ (connected s' = false /\ cnx_closed w' = true)
  | inl _ => cnx_closed w' = cnx_closed w
  end.

(** The file system, the working directory and the data connections of
    [w'] are those of [w]. *)
Definition untouched (w w' : world) : Prop :=
  fs w' = fs w /\ cwd w' = cwd w /\ dialed w' = dialed w /\ sent w' = sent w.

(** Every character of [s] is white space; none is; none is [c]. *)
Fixpoint all_space (s : string) : bool :=
  match s with
  | "" => true
  | String c r => is_space c && all_space r
  end.

Fixpoint no_space (s : string) : bool :=
  match s with
  | "" => true
  | String c r => negb (is_space c) && no_space r
  end.

Fixpoint no_char (c : ascii) (s : string) : bool :=
  match s with
  | "" => true
  | String d r => negb (Ascii.eqb c d) && no_char c r
  end.

(** The names of [p], each after a separator: the text of a path that is
    not the root. *)
Definition flat (p : Fs.dirpath) : string :=
  String.concat "" (map (fun n => "/" ++ n) p).

(** A name as a directory entry can have it: not empty, no separator. *)
Definition proper_name (n : string) : Prop :=
  is_empty n = false /\ no_char "/" n = true.

(** The round is one of an authenticated session and reads one of
    [verbs] off what it received. *)
Definition reads (s : session) (ev : recv_event) (verbs : list string)
  : Prop :=
  authenticated s = true
  /\ exists text command,
      ev = Received text /\ verb_of text = Some command /\ In command verbs.

(** The first three characters of [s] are upper case letters. *)
Definition three_upper (s : string) : bool :=
  match s with
  | String a (String b (String c _)) => is_upper a && is_upper b && is_upper c
  | _ => false
  end.

End Reading.

(** ** A machine to run the server on *)

Module Example.
Import Server.

Definition bytes (s : string) : list Byte.byte := list_byte_of_string s.

Definition root : string := "/srv/ftp".

Definition disk : Fs.filesystem :=
  [ (["srv"], Fs.EDir);
    (["srv"; "ftp"], Fs.EDir);
    (["srv"; "ftp"; "pub"], Fs.EDir);
    (["srv"; "ftp"; "existing.txt"], Fs.EFile (bytes "hello"));
    (["srv"; "ftp2"], Fs.EDir);
    (["etc"], Fs.EDir);
    (["etc"; "passwd"], Fs.EFile (bytes "root:x:0:0")) ].

(** A client that listens on 127.0.0.1:51200 and uploads two chunks, a
    host without a route, and nobody listening anywhere else. *)
Definition lan (host : string) (port : Z) : peer :=
  if String.eqb host "127.0.0.1" && (port =? 51200)
  then Listening [bytes "abc"; bytes "def"]
  else if String.eqb host "10.0.0.1" then Unreachable
  else Refusing.

Definition machine : world :=
  mkWorld disk ["srv"; "ftp"] lan [] [] [] false.

(** The session after [USER guest] and [PASS guest]. *)
Definition guest : session :=
  mkSession (Some "guest") (Some "guest") None "/" true true.

Definition advertised (info : list string) : session :=
  set_client_info (Some info) guest.

End Example.

(** ** Properties *)

Import PyStr Server Reading.

Lemma mem_In (x : string) (xs : list string) :
  mem x xs = true -> In x xs.
Proof.
  unfold mem. intros H. apply existsb_exists in H.
  destruct H as [y [Hy E]]. apply String.eqb_eq in E. now subst.
Qed.

Lemma findall_empty : Pattern.findall "" = [].
Proof. reflexivity. Qed.

Section Dispatching.

Variable BASE_PATH : string.

(** A text with a verb is not empty, and goes to [dispatch] with the verb
    and the argument read off it. *)
Lemma iteration_received (s : session) (text command : string) (w : world) :
  verb_of text = Some command ->
  iteration BASE_PATH s (Received text) w
  = dispatch BASE_PATH s command (arg_of text) w.
Proof.
  unfold verb_of, arg_of, iteration, attempt, bind, recv_message, ret.
  intros H. destruct (strip text) as [|a r] eqn:E.
  - rewrite findall_empty in H. discriminate.
  - cbn [is_empty]. unfold handle_message, bind, item.
    rewrite H. reflexivity.
Qed.

Lemma serve_step (s : session) (ev : recv_event) (rest : list recv_event)
      (w w' : world) (r : exn + session) :
  connected s = true ->
  iteration BASE_PATH s ev w = (w', r) ->
  serve BASE_PATH s (ev :: rest) w
  = match r with
    | inl e => (w', inl e)
    | inr s' => serve BASE_PATH s' rest w'
    end.
Proof.
  intros C H. cbn [serve]. rewrite C. unfold bind. rewrite H.
  destruct r; reflexivity.
Qed.

Lemma serve_closed (s : session) (evs : list recv_event) (w : world) :
  connected s = false -> serve BASE_PATH s evs w = (w, inr s).
Proof. intros C. destruct evs; cbn [serve]; rewrite C; reflexivity. Qed.

End Dispatching.

Section Verbs.

Variable BASE_PATH : string.

Ltac verb H :=
  unfold dispatch, dispatch_authenticated; simpl;
  try rewrite H; reflexivity.

Lemma dispatch_unsupported s command arg :
  mem command SUPPORTED_COMMANDS = false ->
  dispatch BASE_PATH s command arg
  = (send_message "502 Command not implemented." ;; ret s).
Proof. intros H. unfold dispatch. rewrite H. reflexivity. Qed.

Lemma dispatch_OPTS s arg :
  dispatch BASE_PATH s "OPTS" arg = do_OPTS s arg.
Proof. reflexivity. Qed.

Lemma dispatch_USER s arg :
  dispatch BASE_PATH s "USER" arg = do_USER s arg.
Proof. reflexivity. Qed.

Lemma dispatch_PASS s arg :
  dispatch BASE_PATH s "PASS" arg = do_PASS s arg.
Proof. reflexivity. Qed.

Lemma dispatch_QUIT s arg :
  dispatch BASE_PATH s "QUIT" arg = do_QUIT s.
Proof. reflexivity. Qed.

Lemma dispatch_guarded s command arg :
  mem command GUARDED_COMMANDS = true ->
  authenticated s = false ->
  dispatch BASE_PATH s command arg
  = (c <- handle_unauthenticated ;; ret (set_connected c s)).
Proof.
  intros G A. apply mem_In in G. simpl in G.
  decompose [or] G; subst; try contradiction; verb A.
Qed.

Lemma dispatch_XPWD s arg :
  authenticated s = true -> dispatch BASE_PATH s "XPWD" arg = do_XPWD s.
Proof. intros A. verb A. Qed.

Lemma dispatch_CWD s arg :
  authenticated s = true ->
  dispatch BASE_PATH s "CWD" arg = do_CWD BASE_PATH s arg.
Proof. intros A. verb A. Qed.

Lemma dispatch_DELE s arg :
  authenticated s = true ->
  dispatch BASE_PATH s "DELE" arg = do_DELE BASE_PATH s arg.
Proof. intros A. verb A. Qed.

Lemma dispatch_PORT s arg :
  authenticated s = true -> dispatch BASE_PATH s "PORT" arg = do_PORT s arg.
Proof. intros A. verb A. Qed.

Lemma dispatch_RETR s arg :
  authenticated s = true ->
  dispatch BASE_PATH s "RETR" arg = do_RETR BASE_PATH s arg.
Proof. intros A. verb A. Qed.

Lemma dispatch_STOR s arg :
  authenticated s = true ->
  dispatch BASE_PATH s "STOR" arg = do_STOR BASE_PATH s arg.
Proof. intros A. verb A. Qed.

(** A supported command is one of the four open to everybody or one of
    the six that need a login. *)
Lemma supported_split command :
  mem command SUPPORTED_COMMANDS = true ->
  mem command ["OPTS"; "USER"; "PASS"; "QUIT"] = false ->
  mem command GUARDED_COMMANDS = true.
Proof.
  intros S N. apply mem_In in S. simpl in S.
  decompose [or] S; subst; try contradiction;
    try reflexivity; discriminate N.
Qed.

End Verbs.

(** C2. In a session that is not authenticated, a received command of the
    supported vocabulary other than OPTS, USER, PASS and QUIT does nothing
    but this: the one reply [530 Not logged in.] is sent and the control
    connection is closed; the file system, the working directory and the
    data connections are as before, the session variables keep their
    values except [connected], which is false, and the loop takes no
    further input. *)
Theorem unauthenticated_command_closes
        (BASE_PATH : string) (s : session) (text command : string)
        (w : world) :
  authenticated s = false ->
  verb_of text = Some command ->
  mem command SUPPORTED_COMMANDS = true ->
  mem command ["OPTS"; "USER"; "PASS"; "QUIT"] = false ->
  iteration BASE_PATH s (Received text) w
  = (set_closed (add_reply "530 Not logged in." w),
     inr (set_connected false s))
  /\ (connected s = true ->
      forall rest,
        serve BASE_PATH s (Received text :: rest) w
        = (set_closed (add_reply "530 Not logged in." w),
           inr (set_connected false s))).
Proof.
  intros A V S N.
  assert (E : iteration BASE_PATH s (Received text) w
              = (set_closed (add_reply "530 Not logged in." w),
                 inr (set_connected false s))).
  { rewrite (iteration_received _ _ _ _ _ V).
    rewrite (dispatch_guarded _ _ _ _ (supported_split _ S N) A).
    reflexivity. }
  split; [exact E|].
  intros C rest. rewrite (serve_step _ _ _ rest _ _ _ C E).
  apply serve_closed. reflexivity.
Qed.

Lemma unauthenticated_command_closes_witness :
  authenticated fresh = false
  /\ verb_of "DELE existing.txt" = Some "DELE"
  /\ iteration Example.root fresh (Received "DELE existing.txt")
               Example.machine
     = (set_closed (add_reply "530 Not logged in." Example.machine),
        inr (set_connected false fresh))
  /\ Fs.isfile (fs (set_closed (add_reply "530 Not logged in."
                                          Example.machine)))
               ["srv"; "ftp"] "existing.txt" = true.
Proof.
  split; [reflexivity|]. split; [reflexivity|]. split; [|reflexivity].
  apply (unauthenticated_command_closes Example.root fresh
           "DELE existing.txt" "DELE" Example.machine);
    reflexivity.
Defined.



(** C7. An OPTS command whose argument does not start with [UTF8] is
    answered by two replies, [504 ...] and then [200 OK], where the rule
    of one reply per input line asks for one. *)
Theorem opts_other_argument_two_replies
        (BASE_PATH : string) (s : session) (text : string) (w : world) :
  verb_of text = Some "OPTS" ->
  startswith "UTF8" (arg_of text) = false ->
  iteration BASE_PATH s (Received text) w
  = (add_reply "200 OK"
       (add_reply "504 Command not implemented for that argument." w),
     inr s)
  /\ replies (fst (iteration BASE_PATH s (Received text) w))
     = (replies w
          ++ ["504 Command not implemented for that argument."; "200 OK"])%list.
Proof.
  intros V U.
  rewrite (iteration_received _ _ _ _ _ V), dispatch_OPTS.
  unfold do_OPTS. rewrite U. cbn. rewrite <- app_assoc.
  split; reflexivity.
Qed.

Lemma opts_other_argument_two_replies_witness :
  verb_of "OPTS MLST size" = Some "OPTS"
  /\ startswith "UTF8" (arg_of "OPTS MLST size") = false
  /\ replies (fst (iteration Example.root fresh (Received "OPTS MLST size")
                             Example.machine))
     = ["504 Command not implemented for that argument."; "200 OK"].
Proof.
  split; [reflexivity|]. split; [reflexivity|].
  apply (opts_other_argument_two_replies Example.root fresh
           "OPTS MLST size" Example.machine); reflexivity.
Defined.

(** C8. In an authenticated session, STOR on a path where a file exists
    is answered by [553 Requested action not taken. <arg> name already
    taken.] and nothing else happens: no address is dialled, the file
    system (so the file and its content) is as before, and the session
    variables, the stored address among them, keep their values. *)
Theorem stor_existing_name_taken
        (BASE_PATH : string) (s : session) (text : string) (w : world) :
  authenticated s = true ->
  verb_of text = Some "STOR" ->
  Fs.isfile (fs w) (cwd w)
            (resolve BASE_PATH (current_path s) (arg_of text)) = true ->
  iteration BASE_PATH s (Received text) w
  = (add_reply ("553 Requested action not taken. " ++ arg_of text
                  ++ " name already taken.") w,
     inr s).
Proof.
  intros A V F.
  rewrite (iteration_received _ _ _ _ _ V), (dispatch_STOR _ _ _ A).
  unfold do_STOR, bind, Os.isfile, get. rewrite F. reflexivity.
Qed.

Lemma stor_existing_name_taken_witness :
  Fs.isfile (fs Example.machine) (cwd Example.machine)
            (resolve Example.root "/" (arg_of "STOR existing.txt")) = true
  /\ iteration Example.root
               (Example.advertised ["127"; "0"; "0"; "1"; "200"; "0"])
               (Received "STOR existing.txt") Example.machine
     = (add_reply
          "553 Requested action not taken. existing.txt name already taken."
          Example.machine,
        inr (Example.advertised ["127"; "0"; "0"; "1"; "200"; "0"])).
Proof.
  split; [reflexivity|].
  apply (stor_existing_name_taken Example.root
           (Example.advertised ["127"; "0"; "0"; "1"; "200"; "0"])
           "STOR existing.txt" Example.machine); reflexivity.
Defined.

(** C10. In an authenticated session that holds no advertised address
    ([client_info] is [None]), RETR of an existing file and STOR of a path
    where no file exists pass the file test and hand [None] to
    [connect_to_client], which raises [TypeError]: no reply is sent for
    the command (neither 425 nor 150 nor 250), no address is dialled,
    nothing is sent or stored, and the exception leaves the loop. *)
Theorem transfer_without_port
        (BASE_PATH : string) (s : session) (text : string) (w : world) :
  authenticated s = true ->
  client_info s = None ->
  (verb_of text = Some "RETR"
   /\ Fs.isfile (fs w) (cwd w)
                (resolve BASE_PATH (current_path s) (arg_of text)) = true)
  \/ (verb_of text = Some "STOR"
      /\ Fs.isfile (fs w) (cwd w)
                   (resolve BASE_PATH (current_path s) (arg_of text))
         = false) ->
  iteration BASE_PATH s (Received text) w = (w, inl TypeError)
  /\ (connected s = true ->
      forall rest,
        serve BASE_PATH s (Received text :: rest) w = (w, inl TypeError)).
Proof.
  intros A P H.
  assert (E : iteration BASE_PATH s (Received text) w = (w, inl TypeError)).
  { destruct H as [[V F] | [V F]];
      rewrite (iteration_received _ _ _ _ _ V).
    - rewrite (dispatch_RETR _ _ _ A).
      unfold do_RETR, bind, Os.isfile, get. rewrite F. cbn.
      unfold connect_to_client, bind. rewrite P. reflexivity.
    - rewrite (dispatch_STOR _ _ _ A).
      unfold do_STOR, bind, Os.isfile, get. rewrite F. cbn.
      unfold connect_to_client, bind. rewrite P. reflexivity. }
  split; [exact E|].
  intros C rest. rewrite (serve_step _ _ _ rest _ _ _ C E). reflexivity.
Qed.

Lemma transfer_without_port_witness :
  (Fs.isfile (fs Example.machine) (cwd Example.machine)
             (resolve Example.root "/" (arg_of "RETR existing.txt")) = true
   /\ handle_connected_client Example.root
        [Received "USER guest"; Received "PASS guest";
         Received "RETR existing.txt"; Received "XPWD"] Example.machine
      = (add_reply "230 Login successful."
           (add_reply "331 Username OK, need password."
              (add_reply "220 Welcome to myFTPserver!" Example.machine)),
         inl TypeError))
  /\ (Fs.isfile (fs Example.machine) (cwd Example.machine)
                (resolve Example.root "/" (arg_of "STOR new.txt")) = false
      /\ iteration Example.root Example.guest (Received "STOR new.txt")
                   Example.machine
         = (Example.machine, inl TypeError)).
Proof.
  split; (split; [reflexivity|]).
  - change (handle_connected_client Example.root
              [Received "USER guest"; Received "PASS guest";
               Received "RETR existing.txt"; Received "XPWD"]
              Example.machine)
      with (serve Example.root Example.guest
              [Received "RETR existing.txt"; Received "XPWD"]
              (add_reply "230 Login successful."
                 (add_reply "331 Username OK, need password."
                    (add_reply "220 Welcome to myFTPserver!"
                       Example.machine)))).
    apply (transfer_without_port Example.root Example.guest
             "RETR existing.txt"
             (add_reply "230 Login successful."
                (add_reply "331 Username OK, need password."
                   (add_reply "220 Welcome to myFTPserver!"
                      Example.machine))));
      try reflexivity.
    left. split; reflexivity.
  - apply (transfer_without_port Example.root Example.guest
             "STOR new.txt" Example.machine); try reflexivity.
    right. split; reflexivity.
Defined.

(** What [connect_to_client] does with a stored address that has its
    fifth and sixth component readable as integers and a port in range. *)
Lemma connect_to_client_endpoint
      (info : list string) (host : string) (port : Z) (w : world) :
  endpoint info = Some (host, port) ->
  port_ok port = true ->
  connect_to_client (Some info) w
  = (add_dial (host, port) w,
     match net w host port with
     | Listening upload => inr (Some (mkSocket host port upload))
     | Refusing => inr None
     | Unreachable => inl OSError
     end).
Proof.
  unfold endpoint, port_ok. intros E R.
  destruct (nth_error info 4) as [a|] eqn:Ea; [|discriminate].
  destruct (nth_error info 5) as [b|] eqn:Eb; [|discriminate].
  destruct (int a) as [p1|] eqn:Ia; [|discriminate].
  destruct (int b) as [p2|] eqn:Ib; [|discriminate].
  injection E as <- <-.
  apply andb_true_iff in R. destruct R as [R1 R2].
  apply Z.leb_le in R1. apply Z.leb_le in R2.
  unfold connect_to_client, item, to_int, bind, ret, raise.
  rewrite Ea. cbv beta iota. rewrite Ia. cbv beta iota.
  rewrite Eb. cbv beta iota. rewrite Ib. cbv beta iota.
  unfold attempt, Os.connect.
  replace (p1 * 256 + p2 <? 0) with false by (symmetry; apply Z.ltb_ge; lia).
  replace (65535 <? p1 * 256 + p2) with false
    by (symmetry; apply Z.ltb_ge; lia).
  cbn -[Z.mul Z.add].
  match goal with
  | |- context [net w ?h ?p] => destruct (net w h p)
  end; reflexivity.
Qed.

(** C6. For an address [(h1,h2,h3,h4,p1,p2)], [connect_to_client] dials
    host [h1.h2.h3.h4] at port [p1*256 + p2]; it gives the socket when the
    peer accepts and [None] when the peer refuses, but when the host can
    not be reached the [OSError] of [connect] leaves the function. *)
Theorem connect_to_client_outcomes
        (h1 h2 h3 h4 a b : string) (p1 p2 : Z) (w : world) :
  int a = Some p1 ->
  int b = Some p2 ->
  0 <= p1 * 256 + p2 <= 65535 ->
  connect_to_client (Some [h1; h2; h3; h4; a; b]) w
  = (add_dial (h1 ++ "." ++ h2 ++ "." ++ h3 ++ "." ++ h4, p1 * 256 + p2) w,
     match net w (h1 ++ "." ++ h2 ++ "." ++ h3 ++ "." ++ h4)
               (p1 * 256 + p2) with
     | Listening upload =>
         inr (Some (mkSocket (h1 ++ "." ++ h2 ++ "." ++ h3 ++ "." ++ h4)
                             (p1 * 256 + p2) upload))
     | Refusing => inr None
     | Unreachable => inl OSError
     end).
Proof.
  intros Ia Ib R.
  apply connect_to_client_endpoint.
  - unfold endpoint.
    change (nth_error [h1; h2; h3; h4; a; b] 4) with (Some a).
    change (nth_error [h1; h2; h3; h4; a; b] 5) with (Some b).
    cbv beta iota. rewrite Ia, Ib. reflexivity.
  - unfold port_ok. apply andb_true_iff. split; apply Z.leb_le; lia.
Qed.

Lemma connect_to_client_outcomes_witness :
  (int "200" = Some 200 /\ int "0" = Some 0
   /\ 0 <= 200 * 256 + 0 <= 65535)
  /\ connect_to_client (Some ["10"; "0"; "0"; "1"; "200"; "0"])
                       Example.machine
     = (add_dial ("10.0.0.1", 51200) Example.machine, inl OSError)
  /\ connect_to_client (Some ["192"; "168"; "0"; "7"; "200"; "0"])
                       Example.machine
     = (add_dial ("192.168.0.7", 51200) Example.machine, inr None).
Proof.
  split; [repeat split; try reflexivity; lia|]. split.
  - apply (connect_to_client_outcomes "10" "0" "0" "1" "200" "0" 200 0
             Example.machine); try reflexivity; lia.
  - apply (connect_to_client_outcomes "192" "168" "0" "7" "200" "0" 200 0
             Example.machine); try reflexivity; lia.
Defined.

(** ** The transfer commands, case by case *)

Section Transfers.

Variable BASE_PATH : string.





Lemma isfile_resolved fs cwd path p data :
  Fs.resolve fs cwd path = inr (p, Fs.EFile data) ->
  Fs.isfile fs cwd path = true.
Proof. unfold Fs.isfile. intros ->. reflexivity. Qed.


End Transfers.




(** ** Path resolution *)

Lemma append_assoc (a b c : string) : (a ++ b) ++ c = a ++ (b ++ c).
Proof. induction a as [|x a IH]; cbn; [reflexivity | now rewrite IH]. Qed.

Lemma append_empty (a : string) : a ++ "" = a.
Proof. induction a as [|x a IH]; cbn; [reflexivity | now rewrite IH]. Qed.

Lemma startswith_append (p q : string) : startswith p (p ++ q) = true.
Proof.
  unfold startswith. induction p as [|x p IH]; cbn.
  - destruct q; reflexivity.
  - destruct (ascii_dec x x) as [_|N]; [exact IH | now elim N].
Qed.

Lemma with_sep_append (p : string) : exists t, with_sep p = p ++ t.
Proof.
  unfold with_sep. destruct (is_empty p || endswith_char "/" p).
  - exists "". now rewrite append_empty.
  - exists "/". reflexivity.
Qed.

Lemma join_step_relative (path b : string) :
  startswith "/" b = false ->
  PosixPath.join_step path b = with_sep path ++ b.
Proof.
  intros H. unfold PosixPath.join_step, with_sep. rewrite H.
  destruct (is_empty path || endswith_char "/" path); [reflexivity|].
  now rewrite append_assoc.
Qed.

Lemma join_step_absolute (path b : string) :
  startswith "/" b = true -> PosixPath.join_step path b = b.
Proof. intros H. unfold PosixPath.join_step. now rewrite H. Qed.

Lemma no_separator_first (arg : string) :
  mem (head arg) ["/"; "\"] = false -> startswith "/" arg = false.
Proof.
  destruct arg as [|c r]; [reflexivity|].
  unfold startswith. cbn [String.prefix head].
  destruct (ascii_dec "/" c) as [<-|N]; [discriminate | reflexivity].
Qed.

(** The path built from the argument. When the argument begins with [/]
    or [\], the path does not depend on the current virtual path: it is the server
    root, a separator (unless the root is empty or ends in one) and the
    argument without its first character, so it begins with the server
    root, unless what is left of the argument begins with [/] again; then
    the path is what is left of the argument, alone. In the other case
    the path is the server root, a separator, the current virtual path
    without its first character, a separator and the argument (a
    separator is put after a part that is not empty and does not end in
    one), and begins with the server root, when the second character of
    the virtual path is not [/]. *)
Theorem resolve_cases (BASE_PATH current_path arg : string) :
  (mem (head arg) ["/"; "\"] = true ->
   (forall other, resolve BASE_PATH other arg
                  = resolve BASE_PATH current_path arg)
   /\ (startswith "/" (tail arg) = false ->
       resolve BASE_PATH current_path arg = with_sep BASE_PATH ++ tail arg
       /\ startswith BASE_PATH (resolve BASE_PATH current_path arg) = true)
   /\ (startswith "/" (tail arg) = true ->
       resolve BASE_PATH current_path arg = tail arg))
  /\ (mem (head arg) ["/"; "\"] = false ->
      startswith "/" (tail current_path) = false ->
      resolve BASE_PATH current_path arg
      = with_sep (with_sep BASE_PATH ++ tail current_path) ++ arg
      /\ startswith BASE_PATH (resolve BASE_PATH current_path arg) = true).
Proof.
  split.
  - intros H. unfold resolve. rewrite H. cbn [PosixPath.join fold_left].
    split; [reflexivity|]. split.
    + intros R. rewrite (join_step_relative _ _ R). split; [reflexivity|].
      destruct (with_sep_append BASE_PATH) as [t ->].
      rewrite append_assoc. apply startswith_append.
    + intros R. apply join_step_absolute, R.
  - intros H C. unfold resolve. rewrite H. cbn [PosixPath.join fold_left].
    rewrite (join_step_relative _ _ C).
    rewrite (join_step_relative _ _ (no_separator_first _ H)).
    split; [reflexivity|].
    destruct (with_sep_append (with_sep BASE_PATH ++ tail current_path))
      as [t ->].
    destruct (with_sep_append BASE_PATH) as [u ->].
    rewrite !append_assoc. apply startswith_append.
Qed.

Example resolve_cases_example :
  (mem (head "/pub/a.txt") ["/"; "\"] = true
   /\ startswith "/" (tail "/pub/a.txt") = false
   /\ resolve Example.root "/pub" "/pub/a.txt" = "/srv/ftp/pub/a.txt")
  /\ (mem (head "a.txt") ["/"; "\"] = false
      /\ startswith "/" (tail "/pub") = false
      /\ resolve Example.root "/pub" "a.txt" = "/srv/ftp/pub/a.txt").
Proof.
  destruct (resolve_cases Example.root "/pub" "/pub/a.txt") as [A _].
  destruct (resolve_cases Example.root "/pub" "a.txt") as [_ R].
  split; (split; [reflexivity|]); (split; [reflexivity|]).
  - exact (proj1 (proj1 (proj2 (A eq_refl)) eq_refl)).
  - exact (proj1 (R eq_refl eq_refl)).
Qed.

(** C3. An argument that begins with two separators does not resolve
    under the server root: [//etc/passwd] gives [/etc/passwd], whatever the
    current virtual path, because [os.path.join] drops the root before a
    part that still begins with [/]; RETR then sends that file. *)
Theorem resolve_double_separator_escapes :
  mem (head "//etc/passwd") ["/"; "\"] = true
  /\ resolve Example.root "/pub" "//etc/passwd" = "/etc/passwd"
  /\ startswith Example.root (resolve Example.root "/pub" "//etc/passwd")
     = false
  /\ sent (fst (iteration Example.root
                          (Example.advertised
                             ["127"; "0"; "0"; "1"; "200"; "0"])
                          (Received "RETR //etc/passwd") Example.machine))
     = [("127.0.0.1", 51200, Example.bytes "root:x:0:0")].
Proof. repeat split. Qed.

(** ** Changing the directory *)

Section ChangingDirectory.

Variable BASE_PATH : string.

(** The directory [os.chdir] moved to is accepted whenever the text of
    [BASE_PATH] occurs somewhere in the text of its path. *)
Lemma do_CWD_accepted s arg w d :
  Fs.resolve (fs w) (cwd w) (resolve BASE_PATH (current_path s) arg)
  = inr (d, Fs.EDir) ->
  contains BASE_PATH (Fs.render d) = true ->
  do_CWD BASE_PATH s arg w
  = (add_reply ("250 Changed directory: " ++ shown_path BASE_PATH d)
       (set_cwd d w),
     inr (set_current_path (shown_path BASE_PATH d) s)).
Proof.
  intros R C. unfold do_CWD, bind, attempt, Os.chdir, bind, get, ret.
  cbv beta iota. rewrite R. unfold Os.getcwd, get, modify.
  cbn [cwd set_cwd]. rewrite C. reflexivity.
Qed.

(** Otherwise the process goes back to [BASE_PATH] and the session to
    [/]. *)
Lemma do_CWD_reset s arg w d b :
  Fs.resolve (fs w) (cwd w) (resolve BASE_PATH (current_path s) arg)
  = inr (d, Fs.EDir) ->
  contains BASE_PATH (Fs.render d) = false ->
  Fs.resolve (fs w) d BASE_PATH = inr (b, Fs.EDir) ->
  do_CWD BASE_PATH s arg w
  = (add_reply "250 Changed directory: /" (set_cwd b w),
     inr (set_current_path "/" s)).
Proof.
  intros R C B. unfold do_CWD, bind, attempt, Os.chdir, bind, get, ret.
  cbv beta iota. rewrite R. unfold Os.getcwd, get, modify.
  cbn [cwd set_cwd]. rewrite C. cbn [negb fs cwd set_cwd]. rewrite B.
  cbn [fst snd]. rewrite String.eqb_refl. reflexivity.
Qed.


End ChangingDirectory.

(** C1. With the server root [/srv/ftp] and a directory [/srv/ftp2] next
    to it, [CWD ../ftp2] in an authenticated session is accepted: the
    process is in [/srv/ftp2], which is neither the root nor below it, the
    session is not put back to [/], and its virtual path is [2]. The
    containment test looks for the text of [BASE_PATH] anywhere in the
    text of the new directory. *)
Theorem cwd_sibling_not_confined :
  iteration Example.root Example.guest (Received "CWD ../ftp2")
            Example.machine
  = (add_reply "250 Changed directory: 2"
       (set_cwd ["srv"; "ftp2"] Example.machine),
     inr (set_current_path "2" Example.guest))
  /\ Fs.render ["srv"; "ftp2"] = "/srv/ftp2"
  /\ contains Example.root "/srv/ftp2" = true
  /\ below ["srv"; "ftp"] ["srv"; "ftp2"] = false.
Proof. repeat split. Qed.

(** ** What ends a session *)

Section Endings.

Variable BASE_PATH : string.




Lemma iteration_reset s w :
  iteration BASE_PATH s Reset w = (set_closed w, inr (set_connected false s)).
Proof. reflexivity. Qed.

Lemma iteration_empty s text w :
  strip text = "" ->
  iteration BASE_PATH s (Received text) w
  = (set_closed w, inr (set_connected false s)).
Proof.
  intros E. unfold iteration, attempt, bind, recv_message, ret.
  rewrite E. reflexivity.
Qed.

Lemma iteration_undecodable s w :
  iteration BASE_PATH s Undecodable w = (w, inl UnicodeDecodeError).
Proof. reflexivity. Qed.

(** A text that is not empty and has no verb ends in [IndexError]. *)
Lemma iteration_no_verb s text w :
  strip text <> "" ->
  verb_of text = None ->
  iteration BASE_PATH s (Received text) w = (w, inl IndexError).
Proof.
  unfold verb_of. intros N V.
  unfold iteration, attempt, bind, recv_message, ret.
  destruct (strip text) as [|a r] eqn:E; [now elim N|].
  cbn [is_empty]. unfold handle_message, bind, item. rewrite V. reflexivity.
Qed.






End Endings.

Section Causes.

Variable BASE_PATH : string.

Lemma do_DELE_missing s arg w :
  Fs.isfile (fs w) (cwd w) (resolve BASE_PATH (current_path s) arg) = false ->
  do_DELE BASE_PATH s arg w = (add_reply (missing_reply s arg) w, inr s).
Proof.
  intros F. unfold do_DELE, bind, Os.isfile, get. rewrite F. reflexivity.
Qed.


End Causes.




(** ** Sessions from start to end *)

(** Login, then XPWD. *)
Example session_login_xpwd :
  handle_connected_client Example.root
    [Received "USER guest"; Received "PASS guest"; Received "XPWD"]
    Example.machine
  = (add_reply "257 Current directory: /"
       (add_reply "230 Login successful."
          (add_reply "331 Username OK, need password."
             (add_reply "220 Welcome to myFTPserver!" Example.machine))),
     inr Example.guest).
Proof. reflexivity. Qed.

(** A wrong password closes the connection; what comes after is not read. *)
Example session_wrong_password :
  handle_connected_client Example.root
    [Received "USER guest"; Received "PASS secret"; Received "XPWD"]
    Example.machine
  = (set_closed
       (add_reply "530 Not logged in. Incorrect credentials."
          (add_reply "331 Username OK, need password."
             (add_reply "220 Welcome to myFTPserver!" Example.machine))),
     inr (mkSession None None None "/" false false)).
Proof. reflexivity. Qed.

(** Going up from the root, twice: the session stays at [/]. *)
Example session_dot_dot :
  serve Example.root Example.guest
    [Received "CWD pub"; Received "CWD .."; Received "CWD .."]
    Example.machine
  = (add_reply "250 Changed directory: /"
       (add_reply "250 Changed directory: /"
          (add_reply "250 Changed directory: /pub" Example.machine)),
     inr Example.guest).
Proof. reflexivity. Qed.

(** Deleting a file twice. *)
Example session_delete_twice :
  replies (fst (serve Example.root Example.guest
                  [Received "DELE existing.txt"; Received "DELE existing.txt"]
                  Example.machine))
  = ["250 existing.txt deleted.";
     "550 existing.txt does not exist in / directory."].
Proof. reflexivity. Qed.

(** An upload, then a download of the same file over the address that is
    still stored: the bytes that come back are the bytes that were sent. *)
Example session_upload_download :
  sent (fst (serve Example.root
               (Example.advertised ["127"; "0"; "0"; "1"; "200"; "0"])
               [Received "STOR new.txt"; Received "RETR new.txt"]
               Example.machine))
  = [("127.0.0.1", 51200, Example.bytes "abcdef")].
Proof. reflexivity. Qed.

(** ** What every round keeps *)

Ltac run_open H :=
  unfold send_message, close_cnx in H;
  unfold bind, ret, raise, attempt, get, modify in H;
  cbv beta iota in H.

Ltac run_cases H :=
  repeat match type of H with
         | context [match ?x with _ => _ end] =>
             lazymatch x with
             | context [match _ with _ => _ end] => fail
             | _ => destruct x eqn:?
             end
         end.

Lemma grows_same (n : nat) (w w' : world) :
  replies w' = replies w -> grows n w w'.
Proof.
  intros E. exists []. rewrite E, app_nil_r. split; [reflexivity | cbn; lia].
Qed.

Lemma grows_one (n : nat) (w w1 w' : world) (m : string) :
  grows n w w1 -> replies w' = (replies w1 ++ [m])%list -> grows (S n) w w'.
Proof.
  intros [more [E L]] E'. exists (more ++ [m])%list.
  rewrite E', E, app_assoc. split; [reflexivity|].
  rewrite length_app. cbn. lia.
Qed.

Lemma grows_more (n k : nat) (w w' : world) :
  (n <= k)%nat -> grows n w w' -> grows k w w'.
Proof. intros L [more [E M]]. exists more. split; [exact E | lia]. Qed.

Lemma connect_to_client_frame ci w w' r :
  connect_to_client ci w = (w', r) ->
  fs w' = fs w /\ cwd w' = cwd w /\ net w' = net w /\ sent w' = sent w
  /\ replies w' = replies w /\ cnx_closed w' = cnx_closed w.
Proof.
  unfold connect_to_client, item, to_int, Os.connect. intros H.
  run_open H. run_cases H; injection H as <- <-; repeat split.
Qed.

Ltac frame_facts :=
  repeat match goal with
         | H : connect_to_client _ _ = _ |- _ =>
             apply connect_to_client_frame in H;
             destruct H as (? & ? & ? & ? & ? & ?)
         end.

Lemma grows_frame (n : nat) (w w1 w' : world) :
  replies w' = replies w1 -> grows n w w1 -> grows n w w'.
Proof. intros E [more [E1 L]]. exists more. rewrite E. now split. Qed.

Ltac grows_leaf :=
  lazymatch goal with
  | |- grows _ ?w ?w => apply grows_same; reflexivity
  | |- grows _ ?w (add_reply ?m ?w1) =>
      apply (grows_one _ w w1 _ m); [grows_leaf | reflexivity]
  | |- grows _ ?w (add_dial _ ?w1) =>
      apply (grows_frame _ w w1); [reflexivity | grows_leaf]
  | |- grows _ ?w (add_sent _ ?w1) =>
      apply (grows_frame _ w w1); [reflexivity | grows_leaf]
  | |- grows _ ?w (set_fs _ ?w1) =>
      apply (grows_frame _ w w1); [reflexivity | grows_leaf]
  | |- grows _ ?w (set_cwd _ ?w1) =>
      apply (grows_frame _ w w1); [reflexivity | grows_leaf]
  | |- grows _ ?w (set_closed ?w1) =>
      apply (grows_frame _ w w1); [reflexivity | grows_leaf]
  | |- grows _ _ _ => apply grows_same; assumption
  end.

Ltac keeps_leaf :=
  cbn; first [ congruence
             | left; split; [reflexivity | congruence]
             | right; split; reflexivity ].

Ltac round_leaf H :=
  injection H as <- <-; frame_facts; split; [grows_leaf | keeps_leaf].

Section Rounds.

Variable BASE_PATH : string.

Lemma do_OPTS_round s arg w w' r :
  do_OPTS s arg w = (w', r) -> grows 2 w w' /\ keeps_or_closes s w w' r.
Proof.
  unfold do_OPTS. intros H. run_open H. run_cases H; round_leaf H.
Qed.

Lemma do_USER_round s arg w w' r :
  do_USER s arg w = (w', r) -> grows 2 w w' /\ keeps_or_closes s w w' r.
Proof. unfold do_USER. intros H. run_open H. round_leaf H. Qed.

Lemma do_PASS_round s arg w w' r :
  do_PASS s arg w = (w', r) -> grows 2 w w' /\ keeps_or_closes s w w' r.
Proof.
  unfold do_PASS. intros H. run_open H. run_cases H; round_leaf H.
Qed.

Lemma do_QUIT_round s w w' r :
  do_QUIT s w = (w', r) -> grows 2 w w' /\ keeps_or_closes s w w' r.
Proof. unfold do_QUIT. intros H. run_open H. round_leaf H. Qed.

Lemma unauthenticated_round s w w' r :
  (c <- handle_unauthenticated ;; ret (set_connected c s)) w = (w', r) ->
  grows 2 w w' /\ keeps_or_closes s w w' r.
Proof.
  unfold handle_unauthenticated. intros H. run_open H. round_leaf H.
Qed.

Lemma unsupported_round s w w' r :
  (send_message "502 Command not implemented." ;; ret s) w = (w', r) ->
  grows 2 w w' /\ keeps_or_closes s w w' r.
Proof. intros H. run_open H. round_leaf H. Qed.

Lemma do_XPWD_round s w w' r :
  do_XPWD s w = (w', r) -> grows 2 w w' /\ keeps_or_closes s w w' r.
Proof. unfold do_XPWD. intros H. run_open H. round_leaf H. Qed.

Lemma do_PORT_round s arg w w' r :
  do_PORT s arg w = (w', r) -> grows 2 w w' /\ keeps_or_closes s w w' r.
Proof. unfold do_PORT. intros H. run_open H. round_leaf H. Qed.

Lemma do_CWD_round s arg w w' r :
  do_CWD BASE_PATH s arg w = (w', r) ->
  grows 2 w w' /\ keeps_or_closes s w w' r.
Proof.
  unfold do_CWD, Os.chdir, Os.getcwd. intros H.
  run_open H. run_cases H; round_leaf H.
Qed.

Lemma do_DELE_round s arg w w' r :
  do_DELE BASE_PATH s arg w = (w', r) ->
  grows 2 w w' /\ keeps_or_closes s w w' r.
Proof.
  unfold do_DELE, Os.isfile, Os.remove. intros H.
  run_open H. run_cases H; round_leaf H.
Qed.

Lemma do_STOR_round s arg w w' r :
  do_STOR BASE_PATH s arg w = (w', r) ->
  grows 2 w w' /\ keeps_or_closes s w w' r.
Proof.
  unfold do_STOR, Os.isfile, Os.open_wb, Os.write_all. intros H.
  run_open H. run_cases H; round_leaf H.
Qed.

Lemma do_RETR_round s arg w w' r :
  do_RETR BASE_PATH s arg w = (w', r) ->
  grows 2 w w' /\ keeps_or_closes s w w' r.
Proof.
  unfold do_RETR, Os.isfile, Os.read_file, Os.sendfile. intros H.
  run_open H. run_cases H; round_leaf H.
Qed.

Lemma dispatch_round s command arg w w' r :
  dispatch BASE_PATH s command arg w = (w', r) ->
  grows 2 w w' /\ keeps_or_closes s w w' r.
Proof.
  intros H. destruct (mem command SUPPORTED_COMMANDS) eqn:S.
  2:{ rewrite (dispatch_unsupported _ _ _ _ S) in H.
      apply unsupported_round, H. }
  destruct (mem command ["OPTS"; "USER"; "PASS"; "QUIT"]) eqn:N.
  - apply mem_In in N. cbn [In] in N.
    destruct N as [<- | [<- | [<- | [<- | []]]]].
    + apply (do_OPTS_round _ arg), H.
    + apply (do_USER_round _ arg), H.
    + apply (do_PASS_round _ arg), H.
    + apply do_QUIT_round, H.
  - pose proof (supported_split _ S N) as G.
    destruct (authenticated s) eqn:A.
    + apply mem_In in G. cbn [In GUARDED_COMMANDS] in G.
      destruct G as [<- | [<- | [<- | [<- | [<- | [<- | []]]]]]].
      * rewrite (dispatch_XPWD _ _ _ A) in H. apply do_XPWD_round, H.
      * rewrite (dispatch_CWD _ _ _ A) in H. apply (do_CWD_round _ arg), H.
      * rewrite (dispatch_DELE _ _ _ A) in H. apply (do_DELE_round _ arg), H.
      * rewrite (dispatch_PORT _ _ _ A) in H. apply (do_PORT_round _ arg), H.
      * rewrite (dispatch_RETR _ _ _ A) in H. apply (do_RETR_round _ arg), H.
      * rewrite (dispatch_STOR _ _ _ A) in H. apply (do_STOR_round _ arg), H.
    + rewrite (dispatch_guarded _ _ _ _ G A) in H.
      apply unauthenticated_round, H.
Qed.

Lemma iteration_round s ev w w' r :
  iteration BASE_PATH s ev w = (w', r) ->
  grows 2 w w' /\ keeps_or_closes s w w' r.
Proof.
  intros H. destruct ev as [text| |].
  - destruct (string_dec (strip text) "") as [E|E].
    { rewrite (iteration_empty _ _ _ _ E) in H. round_leaf H. }
    destruct (verb_of text) as [command|] eqn:V.
    + rewrite (iteration_received _ _ _ _ _ V) in H.
      apply (dispatch_round _ command (arg_of text)), H.
    + rewrite (iteration_no_verb _ _ _ _ E V) in H. round_leaf H.
  - rewrite iteration_reset in H. round_leaf H.
  - rewrite iteration_undecodable in H. round_leaf H.
Qed.

End Rounds.

Lemma grows_trans (n k : nat) (w w1 w2 : world) :
  grows n w w1 -> grows k w1 w2 -> grows (n + k) w w2.
Proof.
  intros [m1 [E1 L1]] [m2 [E2 L2]]. exists (m1 ++ m2)%list.
  rewrite E2, E1, app_assoc. split; [reflexivity|].
  rewrite length_app. lia.
Qed.

Lemma serve_grows BASE_PATH evs s w :
  grows (2 * length evs) w (fst (serve BASE_PATH s evs w)).
Proof.
  revert s w. induction evs as [|ev rest IH]; intros s w.
  - cbn [serve]. destruct (connected s); apply grows_same; reflexivity.
  - cbn [serve]. destruct (connected s); [|apply grows_same; reflexivity].
    unfold bind. destruct (iteration BASE_PATH s ev w) as [w1 r] eqn:E.
    destruct (iteration_round _ _ _ _ _ _ E) as [G _].
    destruct r as [e|s1].
    + eapply grows_more; [|exact G]. cbn [length]. lia.
    + eapply grows_more; [|exact (grows_trans _ _ _ _ _ G (IH s1 w1))].
      cbn [length]. lia.
Qed.

(** X1. One round of the loop, whatever it received and however it ended
    (an exception included), has left the replies sent so far in place
    and added at most two. *)
Theorem round_adds_at_most_two_replies
        (BASE_PATH : string) (s : session) (ev : recv_event) (w : world) :
  grows 2 w (fst (iteration BASE_PATH s ev w)).
Proof.
  destruct (iteration BASE_PATH s ev w) as [w' r] eqn:E.
  exact (proj1 (iteration_round _ _ _ _ _ _ E)).
Qed.

(** X2. Whatever the deliveries of the control connection, the first
    thing a session sends is [220 Welcome to myFTPserver!], and what it
    sends after it is at most two replies for each delivery. *)
Theorem welcome_comes_first
        (BASE_PATH : string) (evs : list recv_event) (w : world) :
  exists more,
    replies (fst (handle_connected_client BASE_PATH evs w))
    = (replies w ++ "220 Welcome to myFTPserver!" :: more)%list
    /\ (length more <= 2 * length evs)%nat.
Proof.
  unfold handle_connected_client, bind, send_message, modify.
  destruct (serve_grows BASE_PATH evs fresh
              (add_reply "220 Welcome to myFTPserver!" w))
    as [more [E L]].
  exists more. split; [|exact L].
  destruct (serve BASE_PATH fresh evs
              (add_reply "220 Welcome to myFTPserver!" w)) as [w' r].
  cbn [fst] in *. rewrite E. cbn [replies add_reply].
  rewrite <- app_assoc. reflexivity.
Qed.

Lemma serve_closed_flag BASE_PATH evs s w :
  cnx_closed w = negb (connected s) ->
  match serve BASE_PATH s evs w with
  | (w', inr s') => cnx_closed w' = negb (connected s')
  | (w', inl _) => cnx_closed w' = false
  end.
Proof.
  revert s w. induction evs as [|ev rest IH]; intros s w I.
  - cbn [serve].
    destruct (connected s) eqn:C; unfold ret; cbv beta iota;
      rewrite C; exact I.
  - cbn [serve].
    destruct (connected s) eqn:C;
      [|unfold ret; cbv beta iota; rewrite C; exact I].
    unfold bind. destruct (iteration BASE_PATH s ev w) as [w1 r] eqn:E.
    destruct (iteration_round _ _ _ _ _ _ E) as [_ K].
    destruct r as [e|s1]; cbn in K.
    + rewrite K. exact I.
    + apply IH. destruct K as [[K1 K2] | [K1 K2]]; rewrite K1, K2.
      * rewrite C. exact I.
      * reflexivity.
Qed.

(** X3. In a session started on an open control connection, the
    connection is closed exactly when the loop has taken its connected
    flag down; when an exception ends the loop, the connection has not
    been closed. *)
Theorem closed_exactly_when_disconnected
        (BASE_PATH : string) (evs : list recv_event) (w : world) :
  cnx_closed w = false ->
  match handle_connected_client BASE_PATH evs w with
  | (w', inr s') => cnx_closed w' = negb (connected s')
  | (w', inl _) => cnx_closed w' = false
  end.
Proof.
  intros O. unfold handle_connected_client, bind, send_message, modify.
  apply serve_closed_flag. exact O.
Qed.

Lemma closed_exactly_when_disconnected_witness :
  cnx_closed Example.machine = false
  /\ cnx_closed
       (fst (handle_connected_client Example.root
               [Received "USER guest"; Received "PASS guest";
                Received "RETR existing.txt"] Example.machine))
     = false
  /\ cnx_closed
       (fst (handle_connected_client Example.root
               [Received "USER guest"; Received "QUIT"] Example.machine))
     = true.
Proof.
  split; [reflexivity|]. split.
  - exact (closed_exactly_when_disconnected Example.root
             [Received "USER guest"; Received "PASS guest";
              Received "RETR existing.txt"] Example.machine eq_refl).
  - exact (closed_exactly_when_disconnected Example.root
             [Received "USER guest"; Received "QUIT"] Example.machine
             eq_refl).
Defined.

(** ** Before the login *)

Lemma iteration_before_login BASE_PATH s ev w w' r :
  authenticated s = false ->
  iteration BASE_PATH s ev w = (w', r) ->
  untouched w w'
  /\ match r with
     | inr s' =>
         authenticated s' = false
         \/ exists text, ev = Received text /\ verb_of text = Some "PASS"
     | inl _ => True
     end.
Proof.
  intros A H. destruct ev as [text| |].
  - destruct (string_dec (strip text) "") as [E|E].
    { rewrite (iteration_empty _ _ _ _ E) in H.
      injection H as <- <-. split; [repeat split | left; exact A]. }
    destruct (verb_of text) as [command|] eqn:V.
    2:{ rewrite (iteration_no_verb _ _ _ _ E V) in H.
        injection H as <- <-. split; [repeat split | exact Logic.I]. }
    rewrite (iteration_received _ _ _ _ _ V) in H.
    destruct (mem command SUPPORTED_COMMANDS) eqn:S.
    2:{ rewrite (dispatch_unsupported _ _ _ _ S) in H.
        injection H as <- <-. split; [repeat split | left; exact A]. }
    destruct (mem command ["OPTS"; "USER"; "PASS"; "QUIT"]) eqn:N.
    + apply mem_In in N. cbn [In] in N.
      destruct N as [<- | [<- | [<- | [<- | []]]]].
      * rewrite dispatch_OPTS in H. unfold do_OPTS in H. run_open H.
        destruct (negb (startswith "UTF8" (arg_of text)));
          injection H as <- <-; (split; [repeat split | left; exact A]).
      * rewrite dispatch_USER in H.
        injection H as <- <-. split; [repeat split | left; exact A].
      * rewrite dispatch_PASS in H. unfold do_PASS in H. run_open H.
        run_cases H; injection H as <- <-;
          (split; [repeat split | right; exists text; split; auto]).
      * rewrite dispatch_QUIT in H.
        injection H as <- <-. split; [repeat split | left; reflexivity].
    + rewrite (dispatch_guarded _ _ _ _ (supported_split _ S N) A) in H.
      injection H as <- <-. split; [repeat split | left; exact A].
  - rewrite iteration_reset in H.
    injection H as <- <-. split; [repeat split | left; exact A].
  - rewrite iteration_undecodable in H.
    injection H as <- <-. split; [repeat split | exact Logic.I].
Qed.

Lemma untouched_trans w w1 w2 :
  untouched w w1 -> untouched w1 w2 -> untouched w w2.
Proof.
  unfold untouched. intros (A & B & C & D) (A' & B' & C' & D').
  repeat split; congruence.
Qed.

Lemma serve_before_login BASE_PATH evs s w :
  authenticated s = false ->
  (forall text, In (Received text) evs -> verb_of text <> Some "PASS") ->
  untouched w (fst (serve BASE_PATH s evs w))
  /\ forall s', snd (serve BASE_PATH s evs w) = inr s' ->
                authenticated s' = false.
Proof.
  revert s w. induction evs as [|ev rest IH]; intros s w A P.
  - cbn [serve]. destruct (connected s); cbn.
    all: split; [repeat split | intros s' E; injection E as <-; exact A].
  - cbn [serve]. destruct (connected s); cbn.
    2:{ split; [repeat split | intros s' E; injection E as <-; exact A]. }
    unfold bind. destruct (iteration BASE_PATH s ev w) as [w1 r] eqn:E.
    destruct (iteration_before_login _ _ _ _ _ _ A E) as [U L].
    destruct r as [e|s1].
    + cbn. split; [exact U | intros s' X; discriminate X].
    + assert (A1 : authenticated s1 = false).
      { destruct L as [L | [text [-> V]]]; [exact L|].
        exfalso. apply (P text); [left; reflexivity | exact V]. }
      destruct (IH s1 w1 A1) as [U' L'].
      { intros text M. apply P. right. exact M. }
      split; [exact (untouched_trans _ _ _ U U') | exact L'].
Qed.

(** X4. A session in which no PASS command is received never logs in,
    and whatever else it receives, in any order, it leaves the file
    system, the working directory of the process and the data connections
    as they were. *)
Theorem no_pass_no_effect
        (BASE_PATH : string) (evs : list recv_event) (w : world) :
  (forall text, In (Received text) evs -> verb_of text <> Some "PASS") ->
  untouched w (fst (handle_connected_client BASE_PATH evs w))
  /\ forall s', snd (handle_connected_client BASE_PATH evs w) = inr s' ->
                authenticated s' = false.
Proof.
  intros P. unfold handle_connected_client, bind, send_message, modify.
  destruct (serve_before_login BASE_PATH evs fresh
              (add_reply "220 Welcome to myFTPserver!" w) eq_refl P)
    as [U L].
  split; [|exact L].
  apply (untouched_trans w (add_reply "220 Welcome to myFTPserver!" w));
    [repeat split | exact U].
Qed.

Lemma no_pass_no_effect_witness :
  untouched Example.machine
    (fst (handle_connected_client Example.root
            [Received "USER guest"; Received "OPTS UTF8 ON";
             Received "DELE existing.txt"; Received "QUIT"]
            Example.machine)).
Proof.
  apply (no_pass_no_effect Example.root
           [Received "USER guest"; Received "OPTS UTF8 ON";
            Received "DELE existing.txt"; Received "QUIT"]
           Example.machine).
  intros text [E | [E | [E | [E | []]]]];
    injection E as <-; discriminate.
Defined.

(** X5. USER and then PASS, in any session that is connected: the login
    succeeds exactly when the name given to USER and the password given
    to PASS are both [guest]; then the replies are 331 and 230 and the
    session is authenticated. In every other case the replies are 331
    and [530 Not logged in. Incorrect credentials.], the name and the
    password are forgotten and the control connection is closed. *)
Theorem user_then_pass
        (BASE_PATH : string) (s : session) (t1 t2 : string) (w : world) :
  connected s = true ->
  verb_of t1 = Some "USER" ->
  verb_of t2 = Some "PASS" ->
  serve BASE_PATH s [Received t1; Received t2] w
  = if String.eqb (arg_of t1) "guest" && String.eqb (arg_of t2) "guest"
    then (add_reply "230 Login successful."
            (add_reply "331 Username OK, need password." w),
          inr (set_authenticated true
                 (set_password (Some (arg_of t2))
                    (set_username (Some (arg_of t1)) s))))
    else (set_closed
            (add_reply "530 Not logged in. Incorrect credentials."
               (add_reply "331 Username OK, need password." w)),
          inr (set_authenticated false
                 (set_connected false
                    (set_password None (set_username None s))))).
Proof.
  intros C V1 V2.
  assert (E1 : iteration BASE_PATH s (Received t1) w
               = (add_reply "331 Username OK, need password." w,
                  inr (set_username (Some (arg_of t1)) s))).
  { rewrite (iteration_received _ _ _ _ _ V1). reflexivity. }
  rewrite (serve_step _ _ _ _ _ _ _ C E1).
  cbn [serve set_username connected]. rewrite C. unfold bind at 1.
  rewrite (iteration_received _ _ _ _ _ V2), dispatch_PASS.
  unfold do_PASS. cbn [set_password set_username username password is_guest].
  destruct (String.eqb (arg_of t1) "guest" && String.eqb (arg_of t2) "guest").
  - cbn. rewrite C. reflexivity.
  - reflexivity.
Qed.

Lemma user_then_pass_witness :
  (connected fresh = true
   /\ verb_of "USER guest" = Some "USER"
   /\ verb_of "PASS guest" = Some "PASS")
  /\ serve Example.root fresh [Received "USER guest"; Received "PASS guest"]
           Example.machine
     = (add_reply "230 Login successful."
          (add_reply "331 Username OK, need password." Example.machine),
        inr Example.guest)
  /\ serve Example.root fresh [Received "USER guest"; Received "PASS Guest"]
           Example.machine
     = (set_closed
          (add_reply "530 Not logged in. Incorrect credentials."
             (add_reply "331 Username OK, need password." Example.machine)),
        inr (mkSession None None None "/" false false)).
Proof.
  split; [repeat split|]. split.
  - exact (user_then_pass Example.root fresh "USER guest" "PASS guest"
             Example.machine eq_refl eq_refl eq_refl).
  - exact (user_then_pass Example.root fresh "USER guest" "PASS Guest"
             Example.machine eq_refl eq_refl eq_refl).
Defined.

(** ** Lines the loop does not read as commands *)

Lemma lstrip_all_space (s : string) : all_space s = true -> lstrip s = "".
Proof.
  induction s as [|c r IH]; cbn; [reflexivity|].
  intros H. apply andb_true_iff in H. destruct H as [C R].
  rewrite C. exact (IH R).
Qed.

Lemma lstrip_no_space (s : string) : no_space s = true -> lstrip s = s.
Proof.
  destruct s as [|c r]; cbn; [reflexivity|].
  intros H. apply andb_true_iff in H. destruct H as [C _].
  apply negb_true_iff in C. now rewrite C.
Qed.

Lemma rstrip_no_space (s : string) : no_space s = true -> rstrip s = s.
Proof.
  induction s as [|c r IH]; cbn; [reflexivity|].
  intros H. apply andb_true_iff in H. destruct H as [C R].
  apply negb_true_iff in C. rewrite C, (IH R). reflexivity.
Qed.

Lemma strip_no_space (s : string) : no_space s = true -> strip s = s.
Proof.
  intros H. unfold strip. rewrite (lstrip_no_space _ H).
  exact (rstrip_no_space _ H).
Qed.

Lemma scan_no_space (prev : ascii) (s : string) :
  is_space prev = false -> no_space s = true ->
  Pattern.scan false prev s = [].
Proof.
  revert prev. induction s as [|c r IH]; intros prev P H; [reflexivity|].
  cbn in H. apply andb_true_iff in H. destruct H as [C R].
  apply negb_true_iff in C. cbn [Pattern.scan].
  destruct (Ascii.eqb c LF) eqn:L.
  - apply Ascii.eqb_eq in L. subst c. discriminate C.
  - rewrite P. exact (IH c C R).
Qed.

Lemma match_verb_none (s : string) :
  three_upper s = false -> Pattern.match_verb s = None.
Proof.
  destruct s as [|a [|b [|c r]]]; try reflexivity.
  cbn. intros H. rewrite H. reflexivity.
Qed.

(** X6. A delivery that holds white space only (a bare line end, say) is
    taken for the end of the connection: the control connection is closed
    and nothing is replied. *)
Theorem blank_line_disconnects
        (BASE_PATH : string) (s : session) (text : string) (w : world) :
  all_space text = true ->
  iteration BASE_PATH s (Received text) w
  = (set_closed w, inr (set_connected false s)).
Proof.
  intros H. apply iteration_empty. unfold strip.
  rewrite (lstrip_all_space _ H). reflexivity.
Qed.

Lemma blank_line_disconnects_witness :
  all_space CRLF = true
  /\ iteration Example.root Example.guest (Received CRLF) Example.machine
     = (set_closed Example.machine, inr (set_connected false Example.guest)).
Proof.
  split; [reflexivity|].
  exact (blank_line_disconnects Example.root Example.guest CRLF
           Example.machine eq_refl).
Defined.

(** X7. A line without white space in it that does not begin with three
    upper case letters (a command in lower case, a verb of two letters)
    gives the pattern nothing to find: [split_message[0]] raises
    [IndexError], which leaves the loop with no reply sent and the
    connection not closed. *)
Theorem line_without_verb_raises
        (BASE_PATH : string) (s : session) (text : string) (w : world) :
  text <> "" ->
  no_space text = true ->
  three_upper text = false ->
  iteration BASE_PATH s (Received text) w = (w, inl IndexError)
  /\ (connected s = true ->
      forall rest,
        serve BASE_PATH s (Received text :: rest) w = (w, inl IndexError)).
Proof.
  intros N S U.
  assert (E : iteration BASE_PATH s (Received text) w = (w, inl IndexError)).
  { apply iteration_no_verb.
    - rewrite (strip_no_space _ S). exact N.
    - unfold verb_of. rewrite (strip_no_space _ S).
      unfold Pattern.findall. rewrite (match_verb_none _ U).
      destruct text as [|c r]; [now elim N|].
      cbn in S. apply andb_true_iff in S. destruct S as [C R].
      apply negb_true_iff in C. rewrite (scan_no_space _ _ C R).
      reflexivity. }
  split; [exact E|].
  intros C rest. rewrite (serve_step _ _ _ rest _ _ _ C E). reflexivity.
Qed.

Lemma line_without_verb_raises_witness :
  ("quit" <> "" /\ no_space "quit" = true /\ three_upper "quit" = false)
  /\ iteration Example.root Example.guest (Received "quit") Example.machine
     = (Example.machine, inl IndexError).
Proof.
  split; [repeat split; discriminate|].
  apply (line_without_verb_raises Example.root Example.guest "quit"
           Example.machine); [discriminate | reflexivity | reflexivity].
Defined.

(** X8. The verb is matched at the start of the line only: a line that
    begins with [QUIT] ends the session with [221 Goodbye.] whatever
    follows these four letters, a space or not. *)
Theorem quit_prefix_quits
        (BASE_PATH : string) (s : session) (text rest : string) (w : world) :
  strip text = "QUIT" ++ rest ->
  iteration BASE_PATH s (Received text) w
  = (set_closed (add_reply "221 Goodbye." w),
     inr (set_authenticated false (set_connected false s))).
Proof.
  intros E.
  assert (V : verb_of text = Some "QUIT").
  { unfold verb_of. rewrite E. reflexivity. }
  rewrite (iteration_received _ _ _ _ _ V), dispatch_QUIT. reflexivity.
Qed.

Lemma quit_prefix_quits_witness :
  strip "QUITTING is hard" = "QUIT" ++ "TING is hard"
  /\ iteration Example.root Example.guest (Received "QUITTING is hard")
               Example.machine
     = (set_closed (add_reply "221 Goodbye." Example.machine),
        inr (set_authenticated false (set_connected false Example.guest))).
Proof.
  split; [reflexivity|].
  exact (quit_prefix_quits Example.root Example.guest "QUITTING is hard"
           "TING is hard" Example.machine eq_refl).
Defined.

(** ** The address of the data connection *)

Lemma serve_closed_or_done BASE_PATH (s : session) (w : world) :
  serve BASE_PATH s [] w = (w, inr s).
Proof. cbn [serve]. destruct (connected s); reflexivity. Qed.










(** ** Files that are deleted and files that are stored *)


Lemma same_other (p q : Fs.dirpath) : p <> q -> Fs.same p q = false.
Proof.
  unfold Fs.same. intros N.
  destruct (list_eq_dec string_dec p q) as [E|_]; [now elim N | reflexivity].
Qed.

Lemma same_true (p q : Fs.dirpath) : Fs.same p q = true -> p = q.
Proof.
  unfold Fs.same.
  destruct (list_eq_dec string_dec p q) as [E|_]; [auto | discriminate].
Qed.

Lemma lookup_unlink_same (fs : Fs.filesystem) (p : Fs.dirpath) :
  Fs.lookup (Fs.unlink fs p) p = None.
Proof.
  induction fs as [|[q e] r IH]; cbn; [reflexivity|].
  destruct (Fs.same p q) eqn:S; cbn; [exact IH|].
  rewrite S. exact IH.
Qed.

Lemma lookup_unlink_other (fs : Fs.filesystem) (p q : Fs.dirpath) :
  q <> p -> Fs.lookup (Fs.unlink fs p) q = Fs.lookup fs q.
Proof.
  intros N. induction fs as [|[k e] r IH]; cbn; [reflexivity|].
  destruct (Fs.same p k) eqn:S; cbn.
  - apply same_true in S. subst k.
    rewrite (same_other _ _ N). exact IH.
  - destruct (Fs.same q k); [reflexivity | exact IH].
Qed.



(** A walk that ends at a file has found it by a look-up. *)
Lemma walk_file_lookup fs names cur p data :
  Fs.walk fs cur Fs.EDir names = inr (p, Fs.EFile data) ->
  Fs.lookup fs p = Some (Fs.EFile data).
Proof.
  revert cur. induction names as [|n rest IH]; intros cur H; cbn in H.
  - discriminate H.
  - destruct (is_empty n || String.eqb n "."); [exact (IH _ H)|].
    destruct (String.eqb n ".."); [exact (IH _ H)|].
    destruct (Fs.lookup fs (cur ++ [n])%list) as [[d|]|] eqn:L;
      [| exact (IH _ H) | discriminate H].
    destruct rest as [|m rest']; cbn in H; [|discriminate H].
    injection H as <- <-. exact L.
Qed.

(** Once the file is unlinked, the same walk finds nothing. *)
Lemma walk_unlinked fs names cur p data :
  Fs.walk fs cur Fs.EDir names = inr (p, Fs.EFile data) ->
  Fs.walk (Fs.unlink fs p) cur Fs.EDir names = inl FileNotFoundError.
Proof.
  intros W. pose proof (walk_file_lookup _ _ _ _ _ W) as P.
  revert cur W. induction names as [|n rest IH]; intros cur H; cbn in H.
  - discriminate H.
  - cbn [Fs.walk].
    destruct (is_empty n || String.eqb n "."); [exact (IH _ H)|].
    destruct (String.eqb n ".."); [exact (IH _ H)|].
    destruct (Fs.lookup fs (cur ++ [n])%list) as [[d|]|] eqn:L;
      [| | discriminate H].
    + destruct rest as [|m rest']; cbn in H; [|discriminate H].
      injection H as <- <-. rewrite lookup_unlink_same. reflexivity.
    + rewrite lookup_unlink_other; [rewrite L; exact (IH _ H)|].
      intros E. rewrite E, P in L. discriminate L.
Qed.

Lemma isfile_unlinked fs cwd path p data :
  Fs.resolve fs cwd path = inr (p, Fs.EFile data) ->
  Fs.isfile (Fs.unlink fs p) cwd path = false.
Proof.
  unfold Fs.isfile, Fs.resolve.
  destruct (is_empty path); [discriminate|].
  intros W. rewrite (walk_unlinked _ _ _ _ _ W). reflexivity.
Qed.

(** X11. DELE twice, on a path that names a file: the first removes
    exactly that file (every other entry of the file system is as it was)
    and replies [250 <arg> deleted.], the second finds no file and
    replies [550 <arg> does not exist in <path> directory.]; the session
    goes on. *)
Theorem delete_twice
        (BASE_PATH : string) (s : session) (text : string) (w : world)
        (p : Fs.dirpath) (data : list Byte.byte) :
  authenticated s = true ->
  connected s = true ->
  verb_of text = Some "DELE" ->
  Fs.resolve (fs w) (cwd w)
             (resolve BASE_PATH (current_path s) (arg_of text))
  = inr (p, Fs.EFile data) ->
  serve BASE_PATH s [Received text; Received text] w
  = (add_reply (missing_reply s (arg_of text))
       (add_reply ("250 " ++ arg_of text ++ " deleted.")
          (set_fs (Fs.unlink (fs w) p) w)),
     inr s)
  /\ Fs.lookup (Fs.unlink (fs w) p) p = None
  /\ forall q, q <> p ->
               Fs.lookup (Fs.unlink (fs w) p) q = Fs.lookup (fs w) q.
Proof.
  intros A C V X. split; [|split].
  - assert (E1 : iteration BASE_PATH s (Received text) w
                 = (add_reply ("250 " ++ arg_of text ++ " deleted.")
                      (set_fs (Fs.unlink (fs w) p) w),
                    inr s)).
    { rewrite (iteration_received _ _ _ _ _ V), (dispatch_DELE _ _ _ A).
      unfold do_DELE, Os.isfile, Os.remove, bind, get.
      rewrite (isfile_resolved _ _ _ _ _ X). cbv beta iota.
      change (negb true) with false. cbv beta iota. unfold ret.
      rewrite X. reflexivity. }
    rewrite (serve_step _ _ _ _ _ _ _ C E1).
    assert (E2 : iteration BASE_PATH s (Received text)
                   (add_reply ("250 " ++ arg_of text ++ " deleted.")
                      (set_fs (Fs.unlink (fs w) p) w))
                 = (add_reply (missing_reply s (arg_of text))
                      (add_reply ("250 " ++ arg_of text ++ " deleted.")
                         (set_fs (Fs.unlink (fs w) p) w)),
                    inr s)).
    { rewrite (iteration_received _ _ _ _ _ V), (dispatch_DELE _ _ _ A).
      apply do_DELE_missing. cbn [fs cwd add_reply set_fs].
      exact (isfile_unlinked _ _ _ _ _ X). }
    rewrite (serve_step _ _ _ [] _ _ _ C E2). apply serve_closed_or_done.
  - apply lookup_unlink_same.
  - intros q N. apply lookup_unlink_other, N.
Qed.

Lemma delete_twice_witness :
  Fs.resolve (fs Example.machine) (cwd Example.machine)
             (resolve Example.root "/" (arg_of "DELE existing.txt"))
  = inr (["srv"; "ftp"; "existing.txt"], Fs.EFile (Example.bytes "hello"))
  /\ replies (fst (serve Example.root Example.guest
                     [Received "DELE existing.txt";
                      Received "DELE existing.txt"] Example.machine))
     = ["250 existing.txt deleted.";
        "550 existing.txt does not exist in / directory."].
Proof.
  split; [reflexivity|].
  rewrite (proj1 (delete_twice Example.root Example.guest
                    "DELE existing.txt" Example.machine
                    ["srv"; "ftp"; "existing.txt"] (Example.bytes "hello")
                    eq_refl eq_refl eq_refl eq_refl)).
  reflexivity.
Defined.

Lemma walk_app fs xs ys cur e :
  Fs.walk fs cur e (xs ++ ys)%list
  = match Fs.walk fs cur e xs with
    | inl x => inl x
    | inr (c, e') => Fs.walk fs c e' ys
    end.
Proof.
  revert cur e. induction xs as [|n rest IH]; intros cur e; [reflexivity|].
  cbn [app Fs.walk]. destruct e as [d|]; [reflexivity|].
  destruct (is_empty n || String.eqb n "."); [apply IH|].
  destruct (String.eqb n ".."); [apply IH|].
  destruct (Fs.lookup fs (cur ++ [n])%list); [apply IH | reflexivity].
Qed.


Lemma split_not_nil (c : ascii) (s : string) : split c s <> [].
Proof.
  destruct s as [|d r]; cbn; [discriminate|].
  destruct (Ascii.eqb c d); [discriminate|].
  destruct (split c r); discriminate.
Qed.


Section Storing.

Variable BASE_PATH : string.


End Storing.





(** ** Directories at and below the root *)

Lemma length_append (a b : string) :
  String.length (a ++ b) = (String.length a + String.length b)%nat.
Proof. induction a as [|x a IH]; cbn; [reflexivity | now rewrite IH]. Qed.

Lemma flat_cons (n : string) (p : Fs.dirpath) :
  flat (n :: p) = String "/" n ++ flat p.
Proof.
  unfold flat. destruct p as [|m r]; cbn.
  - now rewrite append_empty.
  - reflexivity.
Qed.

Lemma flat_app (p q : Fs.dirpath) :
  flat (p ++ q)%list = flat p ++ flat q.
Proof.
  induction p as [|n p IH]; [reflexivity|].
  cbn [app]. rewrite !flat_cons, IH. now rewrite append_assoc.
Qed.

Lemma render_flat (p : Fs.dirpath) : p <> [] -> Fs.render p = flat p.
Proof. destruct p; [intros N; now elim N | reflexivity]. Qed.

Lemma flat_not_empty (p : Fs.dirpath) : p <> [] -> flat p <> "".
Proof.
  destruct p as [|n r]; [intros N; now elim N|].
  intros _. rewrite flat_cons. discriminate.
Qed.

Lemma eqb_longer (a b : string) : b <> "" -> String.eqb (a ++ b) a = false.
Proof.
  intros N. apply String.eqb_neq. intros E.
  apply (f_equal String.length) in E. rewrite length_append in E.
  destruct b; [now elim N | cbn in E; lia].
Qed.

Lemma drop_append (a b : string) : drop (String.length a) (a ++ b) = b.
Proof. induction a as [|x a IH]; cbn; [now destruct b | exact IH]. Qed.

Lemma removeprefix_append (a b : string) : removeprefix a (a ++ b) = b.
Proof.
  unfold removeprefix.
  change (String.prefix a (a ++ b)) with (startswith a (a ++ b)).
  rewrite startswith_append. apply drop_append.
Qed.

Lemma contains_prefix (a b : string) :
  String.prefix a b = true -> contains a b = true.
Proof. intros H. destruct b; cbn [contains]; rewrite H; reflexivity. Qed.

(** X14. CWD into the server root or a directory below it, when the
    server root is not [/] itself: the change is accepted, the process is
    in that directory, and the virtual path, in the reply and in the
    session, is the path of the directory from the server root ([/] for
    the root itself). *)
Theorem cwd_below_root
        (root_dir rest : Fs.dirpath) (s : session) (text : string)
        (w : world) :
  root_dir <> [] ->
  authenticated s = true ->
  verb_of text = Some "CWD" ->
  Fs.resolve (fs w) (cwd w)
             (resolve (Fs.render root_dir) (current_path s) (arg_of text))
  = inr ((root_dir ++ rest)%list, Fs.EDir) ->
  iteration (Fs.render root_dir) s (Received text) w
  = (add_reply ("250 Changed directory: " ++ Fs.render rest)
       (set_cwd (root_dir ++ rest)%list w),
     inr (set_current_path (Fs.render rest) s)).
Proof.
  intros N A V X.
  rewrite (iteration_received _ _ _ _ _ V), (dispatch_CWD _ _ _ A).
  assert (S : shown_path (Fs.render root_dir) (root_dir ++ rest)%list
              = Fs.render rest).
  { unfold shown_path. destruct rest as [|n r].
    - rewrite app_nil_r, String.eqb_refl. reflexivity.
    - assert (M : (root_dir ++ n :: r)%list <> [])
        by (destruct root_dir; discriminate).
      rewrite (render_flat _ M), (render_flat _ N), flat_app.
      rewrite eqb_longer by (apply flat_not_empty; discriminate).
      rewrite removeprefix_append. reflexivity. }
  rewrite <- S. apply do_CWD_accepted; [exact X|].
  apply contains_prefix. destruct rest as [|n r].
  - rewrite app_nil_r.
    rewrite <- (append_empty (Fs.render root_dir)) at 2.
    apply startswith_append.
  - assert (M : (root_dir ++ n :: r)%list <> [])
      by (destruct root_dir; discriminate).
    rewrite (render_flat _ M), (render_flat _ N), flat_app.
    apply startswith_append.
Qed.

Lemma cwd_below_root_witness :
  (["srv"; "ftp"] <> []
   /\ Fs.resolve (fs Example.machine) (cwd Example.machine)
                 (resolve (Fs.render ["srv"; "ftp"]) "/" (arg_of "CWD /pub/"))
      = inr ((["srv"; "ftp"] ++ ["pub"])%list, Fs.EDir))
  /\ iteration Example.root Example.guest (Received "CWD /pub/")
               Example.machine
     = (add_reply "250 Changed directory: /pub"
          (set_cwd ["srv"; "ftp"; "pub"] Example.machine),
        inr (set_current_path "/pub" Example.guest)).
Proof.
  split; [split; [discriminate | reflexivity]|].
  apply (cwd_below_root ["srv"; "ftp"] ["pub"] Example.guest "CWD /pub/"
           Example.machine); [discriminate | reflexivity ..].
Defined.

Lemma split_app (c : ascii) (a b : string) :
  split c (a ++ String c b) = (split c a ++ split c b)%list.
Proof.
  induction a as [|d r IH]; cbn.
  - now rewrite Ascii.eqb_refl.
  - destruct (Ascii.eqb c d); rewrite IH; [reflexivity|].
    pose proof (split_not_nil c r) as N.
    destruct (split c r); [now elim N | reflexivity].
Qed.

Lemma split_clean (c : ascii) (s : string) :
  Forall (fun x => no_char c x = true) (split c s).
Proof.
  induction s as [|d r IH]; cbn.
  - repeat constructor.
  - destruct (Ascii.eqb c d) eqn:E.
    + constructor; [reflexivity | exact IH].
    + destruct (split c r) as [|x xs]; [repeat constructor; cbn; now rewrite E|].
      inversion IH; subst. constructor; [|assumption].
      cbn. rewrite E. assumption.
Qed.

Lemma Forall_removelast {A} (P : A -> Prop) (l : list A) :
  Forall P l -> Forall P (removelast l).
Proof.
  induction l as [|x [|y r] IH]; intros F; cbn; [constructor | constructor |].
  inversion F; subst. constructor; [assumption | now apply IH].
Qed.

Lemma proper_snoc (cur : Fs.dirpath) (n : string) :
  Forall proper_name cur ->
  is_empty n || String.eqb n "." = false ->
  no_char "/" n = true ->
  Forall proper_name (cur ++ [n])%list.
Proof.
  intros C S F. apply Forall_app. split; [exact C|].
  constructor; [|constructor]. split; [|exact F].
  apply orb_false_iff in S. exact (proj1 S).
Qed.

(** Where a walk arrives, every name is a proper one. *)
Lemma walk_proper fs names cur e d e' :
  Forall proper_name cur ->
  Forall (fun x => no_char "/" x = true) names ->
  Fs.walk fs cur e names = inr (d, e') ->
  Forall proper_name d.
Proof.
  revert cur e. induction names as [|n rest IH]; intros cur e C F H.
  - cbn in H. injection H as <- _. exact C.
  - inversion F as [|? ? Fn Fr]; subst. cbn [Fs.walk] in H.
    destruct e as [x|]; [discriminate H|].
    destruct (is_empty n || String.eqb n ".") eqn:S1;
      [exact (IH _ _ C Fr H)|].
    destruct (String.eqb n "..");
      [exact (IH _ _ (Forall_removelast _ _ C) Fr H)|].
    destruct (Fs.lookup fs (cur ++ [n])%list) as [x|]; [|discriminate H].
    apply (IH _ _ (proper_snoc cur n C S1 Fn) Fr H).
Qed.

Lemma last_char_append_cons (a b : string) (c : ascii) :
  last_char (a ++ String c b) = last_char (String c b).
Proof.
  induction a as [|x a IH]; [reflexivity|].
  cbn [append]. rewrite <- IH.
  destruct a; reflexivity.
Qed.

Lemma last_char_no_char (c : ascii) (s : string) :
  no_char c s = true -> last_char s <> Some c.
Proof.
  induction s as [|d r IH]; [discriminate|].
  cbn [no_char]. intros H. apply andb_true_iff in H. destruct H as [D R].
  apply negb_true_iff, Ascii.eqb_neq in D.
  destruct r as [|e r']; [cbn; congruence | exact (IH R)].
Qed.

Lemma prefix_length (a b : string) :
  String.prefix a b = true -> (String.length a <= String.length b)%nat.
Proof.
  revert b. induction a as [|x a IH]; intros b H; cbn; [lia|].
  destruct b as [|y b]; cbn in H; [discriminate|].
  destruct (ascii_dec x y); [|discriminate].
  specialize (IH _ H). cbn. lia.
Qed.

Lemma contains_short (a b : string) :
  (String.length b < String.length a)%nat -> contains a b = false.
Proof.
  induction b as [|y b IH]; intros L; cbn [contains].
  - destruct a; [cbn in L; lia | reflexivity].
  - rewrite IH by (cbn in L; lia). rewrite orb_false_r.
    destruct (String.prefix a (String y b)) eqn:P; [|reflexivity].
    apply prefix_length in P. lia.
Qed.

Lemma startswith_grow (c : ascii) (a t : string) :
  startswith (String c "") a = true ->
  startswith (String c "") (a ++ t) = true.
Proof.
  unfold startswith. destruct a as [|x b]; cbn; [discriminate|].
  destruct (ascii_dec c x); [|discriminate].
  intros _. now destruct (b ++ t).
Qed.

Lemma resolve_absolute fs c1 c2 path :
  startswith "/" path = true -> Fs.resolve fs c1 path = Fs.resolve fs c2 path.
Proof. intros S. unfold Fs.resolve, Fs.start. now rewrite S. Qed.

Section AtTheRoot.

Variable root_dir : Fs.dirpath.
Hypothesis root_not_top : root_dir <> [].

Lemma root_absolute : startswith "/" (Fs.render root_dir) = true.
Proof.
  rewrite (render_flat _ root_not_top).
  destruct root_dir as [|n r]; [now elim root_not_top|].
  rewrite flat_cons. exact (startswith_append "/" (n ++ flat r)).
Qed.

Lemma root_walk fs cwd :
  Fs.resolve fs cwd (Fs.render root_dir) = inr (root_dir, Fs.EDir) ->
  Fs.walk fs [] Fs.EDir (split "/" (Fs.render root_dir))
  = inr (root_dir, Fs.EDir).
Proof.
  unfold Fs.resolve, Fs.start. rewrite root_absolute.
  destruct (is_empty (Fs.render root_dir)); [discriminate | auto].
Qed.

Lemma root_proper fs cwd :
  Fs.resolve fs cwd (Fs.render root_dir) = inr (root_dir, Fs.EDir) ->
  Forall proper_name root_dir.
Proof.
  intros R. apply root_walk in R.
  exact (walk_proper _ _ _ _ _ _ (Forall_nil _) (split_clean _ _) R).
Qed.

Lemma root_no_trailing_separator fs cwd :
  Fs.resolve fs cwd (Fs.render root_dir) = inr (root_dir, Fs.EDir) ->
  endswith_char "/" (Fs.render root_dir) = false.
Proof.
  intros R. pose proof (root_proper _ _ R) as P.
  rewrite (render_flat _ root_not_top).
  rewrite (app_removelast_last "" root_not_top) in P |- *.
  apply Forall_app in P. destruct P as [_ P]. inversion P as [|? ? [E F] _].
  rewrite flat_app, flat_cons.
  change (flat []) with "". rewrite append_empty.
  unfold endswith_char. rewrite last_char_append_cons.
  destruct (last root_dir "") as [|c r] eqn:L; [discriminate E|].
  change (last_char (String "/" (String c r))) with (last_char (String c r)).
  pose proof (last_char_no_char _ _ F) as Q.
  destruct (last_char (String c r)) as [d|]; [|reflexivity].
  apply Ascii.eqb_neq. congruence.
Qed.

Lemma parent_not_contained fs cwd :
  Fs.resolve fs cwd (Fs.render root_dir) = inr (root_dir, Fs.EDir) ->
  contains (Fs.render root_dir) (Fs.render (removelast root_dir)) = false.
Proof.
  intros R. pose proof (root_proper _ _ R) as P.
  apply contains_short. rewrite (render_flat _ root_not_top).
  rewrite (app_removelast_last "" root_not_top) in P |- * at 2.
  apply Forall_app in P. destruct P as [_ P]. inversion P as [|? ? [E F] _].
  rewrite flat_app, flat_cons, !length_append.
  destruct (last root_dir "") as [|c r]; [discriminate E|].
  cbn [String.length].
  destruct (removelast root_dir) as [|m q] eqn:Q; [cbn; lia|].
  rewrite render_flat by discriminate. lia.
Qed.

(** The path that [CWD ..] builds at the virtual path [/]. *)
Lemma dotdot_path fs cwd :
  Fs.resolve fs cwd (Fs.render root_dir) = inr (root_dir, Fs.EDir) ->
  resolve (Fs.render root_dir) "/" ".."
  = Fs.render root_dir ++ String "/" "..".
Proof.
  intros R.
  assert (J : PosixPath.join_step (Fs.render root_dir) ""
              = Fs.render root_dir ++ String "/" "").
  { unfold PosixPath.join_step. change (startswith "/" "") with false.
    cbv beta iota. rewrite (root_no_trailing_separator _ _ R).
    pose proof root_absolute as A.
    destruct (Fs.render root_dir); [discriminate A | reflexivity]. }
  unfold resolve. change (mem (head "..") ["/"; "\"]) with false.
  cbv beta iota. change (tail "/") with "".
  unfold PosixPath.join. cbn [fold_left]. rewrite J.
  unfold PosixPath.join_step. change (startswith "/" "..") with false.
  cbv beta iota. unfold endswith_char at 1.
  rewrite last_char_append_cons. cbn [last_char Ascii.eqb].
  change (Ascii.eqb "/" "/") with true. rewrite orb_true_r.
  rewrite append_assoc. reflexivity.
Qed.

Lemma dotdot_target fs cwd :
  Fs.resolve fs cwd (Fs.render root_dir) = inr (root_dir, Fs.EDir) ->
  Fs.resolve fs cwd (resolve (Fs.render root_dir) "/" "..")
  = inr (removelast root_dir, Fs.EDir).
Proof.
  intros R. rewrite (dotdot_path _ _ R).
  pose proof (root_walk _ _ R) as W. pose proof root_absolute as A.
  unfold Fs.resolve, Fs.start.
  rewrite (startswith_grow _ _ _ A), split_app, walk_app, W.
  destruct (Fs.render root_dir); [discriminate A | reflexivity].
Qed.

End AtTheRoot.

Lemma current_path_same (s : session) :
  current_path s = "/" -> set_current_path "/" s = s.
Proof. destruct s; cbn. intros ->. reflexivity. Qed.

Lemma cwd_dotdot_step (root_dir : Fs.dirpath) (s : session) (w : world) :
  root_dir <> [] ->
  Fs.resolve (fs w) (cwd w) (Fs.render root_dir) = inr (root_dir, Fs.EDir) ->
  authenticated s = true ->
  current_path s = "/" ->
  iteration (Fs.render root_dir) s (Received "CWD ..") w
  = (add_reply "250 Changed directory: /" (set_cwd root_dir w), inr s).
Proof.
  intros N R A P.
  assert (V : verb_of "CWD .." = Some "CWD") by reflexivity.
  rewrite (iteration_received _ _ _ _ _ V), (dispatch_CWD _ _ _ A).
  change (arg_of "CWD ..") with "..".
  rewrite <- (current_path_same _ P) at 2.
  apply (do_CWD_reset _ _ _ _ (removelast root_dir) root_dir).
  - rewrite P. exact (dotdot_target _ N _ _ R).
  - exact (parent_not_contained _ N _ _ R).
  - rewrite <- R. apply resolve_absolute, root_absolute, N.
Qed.

(** X15. CWD .. at the server root, as often as one likes. When the
    server root is an existing directory other than [/], the process is
    in it and the session is at the virtual path [/], every [CWD ..] is
    answered [250 Changed directory: /]: the process has gone up and has
    been put back into the server root, the session is as it was, and
    nothing else has changed. *)
Theorem dotdot_stays_at_root
        (root_dir : Fs.dirpath) (s : session) (n : nat) (w : world) :
  root_dir <> [] ->
  Fs.resolve (fs w) (cwd w) (Fs.render root_dir) = inr (root_dir, Fs.EDir) ->
  cwd w = root_dir ->
  authenticated s = true ->
  connected s = true ->
  current_path s = "/" ->
  exists w',
    serve (Fs.render root_dir) s (repeat (Received "CWD ..") n) w
    = (w', inr s)
    /\ untouched w w'
    /\ cnx_closed w' = cnx_closed w
    /\ replies w'
       = (replies w ++ repeat "250 Changed directory: /" n)%list.
Proof.
  intros N R D A C P. revert w R D.
  induction n as [|n IH]; intros w R D.
  - exists w. cbn [repeat]. rewrite serve_closed_or_done, app_nil_r.
    repeat split.
  - cbn [repeat].
    rewrite (serve_step _ _ _ _ _ _ _ C (cwd_dotdot_step _ _ _ N R A P)).
    destruct (IH (add_reply "250 Changed directory: /" (set_cwd root_dir w)))
      as [w' [E [[U1 [U2 [U3 U4]]] [K L]]]].
    + cbn [fs cwd add_reply set_cwd]. rewrite <- R.
      apply resolve_absolute, root_absolute, N.
    + reflexivity.
    + exists w'. split; [exact E|].
      cbn [fs cwd dialed sent replies cnx_closed add_reply set_cwd] in *.
      split; [repeat split; congruence|]. split; [exact K|].
      rewrite L, <- app_assoc. reflexivity.
Qed.

Lemma dotdot_stays_at_root_witness :
  (["srv"; "ftp"] <> []
   /\ Fs.resolve (fs Example.machine) (cwd Example.machine)
                 (Fs.render ["srv"; "ftp"])
      = inr (["srv"; "ftp"], Fs.EDir))
  /\ exists w',
      serve Example.root Example.guest (repeat (Received "CWD ..") 3)
            Example.machine
      = (w', inr Example.guest)
      /\ cwd w' = ["srv"; "ftp"]
      /\ replies w' = repeat "250 Changed directory: /" 3.
Proof.
  split; [split; [discriminate | reflexivity]|].
  destruct (dotdot_stays_at_root ["srv"; "ftp"] Example.guest 3
              Example.machine ltac:(discriminate) eq_refl eq_refl eq_refl
              eq_refl eq_refl)
    as [w' [E [[_ [U _]] [_ L]]]].
  exists w'. split; [exact E|]. split; [exact U | exact L].
Defined.

(** ** Which command can change what *)

Ltac frame_leaf H :=
  injection H as <- <-; frame_facts;
  cbn [fs cwd dialed sent add_reply add_dial add_sent set_fs set_cwd
          set_closed];
  repeat split; congruence.

Section Effects.

Variable BASE_PATH : string.

Lemma do_OPTS_untouched s arg w w' r :
  do_OPTS s arg w = (w', r) -> untouched w w'.
Proof.
  unfold do_OPTS, untouched. intros H. run_open H. run_cases H; frame_leaf H.
Qed.

Lemma do_PASS_untouched s arg w w' r :
  do_PASS s arg w = (w', r) -> untouched w w'.
Proof.
  unfold do_PASS, untouched. intros H. run_open H. run_cases H; frame_leaf H.
Qed.

Lemma do_CWD_frame s arg w w' r :
  do_CWD BASE_PATH s arg w = (w', r) ->
  fs w' = fs w /\ dialed w' = dialed w /\ sent w' = sent w.
Proof.
  unfold do_CWD, Os.chdir, Os.getcwd. intros H.
  run_open H. run_cases H; frame_leaf H.
Qed.

Lemma do_DELE_frame s arg w w' r :
  do_DELE BASE_PATH s arg w = (w', r) ->
  cwd w' = cwd w /\ dialed w' = dialed w /\ sent w' = sent w.
Proof.
  unfold do_DELE, Os.isfile, Os.remove. intros H.
  run_open H. run_cases H; frame_leaf H.
Qed.

Lemma do_RETR_frame s arg w w' r :
  do_RETR BASE_PATH s arg w = (w', r) -> fs w' = fs w /\ cwd w' = cwd w.
Proof.
  unfold do_RETR, Os.isfile, Os.read_file, Os.sendfile. intros H.
  run_open H. run_cases H; frame_leaf H.
Qed.

Lemma do_STOR_frame s arg w w' r :
  do_STOR BASE_PATH s arg w = (w', r) -> cwd w' = cwd w /\ sent w' = sent w.
Proof.
  unfold do_STOR, Os.isfile, Os.open_wb, Os.write_all. intros H.
  run_open H. run_cases H; frame_leaf H.
Qed.

End Effects.

(** X16. What a round can change, by the verb it read. The file system
    is changed by DELE and STOR only, the working directory of the
    process by CWD only, data is sent by RETR only, and an address is
    dialled by RETR and STOR only; each of them in an authenticated
    session only. This holds however the round ends, an exception
    included. *)
Theorem effects_need_their_verb
        (BASE_PATH : string) (s : session) (ev : recv_event) (w : world) :
  (fs (fst (iteration BASE_PATH s ev w)) = fs w
   \/ reads s ev ["DELE"; "STOR"])
  /\ (cwd (fst (iteration BASE_PATH s ev w)) = cwd w
      \/ reads s ev ["CWD"])
  /\ (sent (fst (iteration BASE_PATH s ev w)) = sent w
      \/ reads s ev ["RETR"])
  /\ (dialed (fst (iteration BASE_PATH s ev w)) = dialed w
      \/ reads s ev ["RETR"; "STOR"]).
Proof.
  destruct (iteration BASE_PATH s ev w) as [w' r] eqn:H. cbn [fst].
  assert (Q : forall P1 P2 P3 P4 : Prop,
              untouched w w' ->
              (fs w' = fs w \/ P1) /\ (cwd w' = cwd w \/ P2)
              /\ (sent w' = sent w \/ P3) /\ (dialed w' = dialed w \/ P4)).
  { intros P1 P2 P3 P4 (U1 & U2 & U3 & U4). repeat split; left; assumption. }
  destruct (authenticated s) eqn:A.
  2:{ apply Q. exact (proj1 (iteration_before_login _ _ _ _ _ _ A H)). }
  destruct ev as [text| |].
  - destruct (string_dec (strip text) "") as [E|E].
    { rewrite (iteration_empty _ _ _ _ E) in H. apply Q.
      injection H as <- <-. repeat split. }
    destruct (verb_of text) as [command|] eqn:V.
    2:{ rewrite (iteration_no_verb _ _ _ _ E V) in H. apply Q.
        injection H as <- <-. repeat split. }
    rewrite (iteration_received _ _ _ _ _ V) in H.
    destruct (mem command SUPPORTED_COMMANDS) eqn:S.
    2:{ rewrite (dispatch_unsupported _ _ _ _ S) in H. apply Q.
        injection H as <- <-. repeat split. }
    assert (W : forall verbs, In command verbs ->
                              reads s (Received text) verbs).
    { intros verbs M. split; [exact A|]. exists text, command. auto. }
    apply mem_In in S. cbn [In SUPPORTED_COMMANDS] in S.
    destruct S as [<-|[<-|[<-|[<-|[<-|[<-|[<-|[<-|[<-|[<-|[]]]]]]]]]]].
    + rewrite dispatch_OPTS in H. apply Q.
      exact (do_OPTS_untouched _ _ _ _ _ H).
    + rewrite dispatch_USER in H. apply Q. injection H as <- <-.
      repeat split.
    + rewrite dispatch_PASS in H. apply Q.
      exact (do_PASS_untouched _ _ _ _ _ H).
    + rewrite dispatch_QUIT in H. apply Q. injection H as <- <-.
      repeat split.
    + rewrite (dispatch_XPWD _ _ _ A) in H. apply Q.
      injection H as <- <-. repeat split.
    + rewrite (dispatch_CWD _ _ _ A) in H.
      destruct (do_CWD_frame _ _ _ _ _ _ H) as (F1 & F2 & F3).
      repeat split; [left | right; apply W; cbn | left | left]; auto.
    + rewrite (dispatch_DELE _ _ _ A) in H.
      destruct (do_DELE_frame _ _ _ _ _ _ H) as (F1 & F2 & F3).
      repeat split; [right; apply W; cbn | left | left | left]; auto.
    + rewrite (dispatch_PORT _ _ _ A) in H. apply Q.
      injection H as <- <-. repeat split.
    + rewrite (dispatch_RETR _ _ _ A) in H.
      destruct (do_RETR_frame _ _ _ _ _ _ H) as (F1 & F2).
      repeat split;
        [left | left | right; apply W; cbn | right; apply W; cbn]; auto.
    + rewrite (dispatch_STOR _ _ _ A) in H.
      destruct (do_STOR_frame _ _ _ _ _ _ H) as (F1 & F2).
      repeat split;
        [right; apply W; cbn | left | left | right; apply W; cbn]; auto.
  - rewrite iteration_reset in H. apply Q. injection H as <- <-.
    repeat split.
  - rewrite iteration_undecodable in H. apply Q.
    injection H as <- <-. repeat split.
Qed.

Lemma effects_need_their_verb_witness :
  cwd (fst (iteration Example.root Example.guest (Received "CWD pub")
                      Example.machine))
  <> cwd Example.machine
  /\ reads Example.guest (Received "CWD pub") ["CWD"].
Proof.
  split; [discriminate|].
  destruct (effects_need_their_verb Example.root Example.guest
              (Received "CWD pub") Example.machine)
    as [_ [[E | R] _]]; [discriminate E | exact R].
Defined.

(** X17. CWD to a directory whose path does not have the text of
    [BASE_PATH] in it (a parent of the server root, a directory reached
    through an absolute argument such as [//etc]): the process is put
    back into the directory [BASE_PATH] names, the session is at the
    virtual path [/], and the reply is [250 Changed directory: /]. *)
Theorem cwd_outside_resets
        (BASE_PATH : string) (s : session) (text : string) (w : world)
        (d b : Fs.dirpath) :
  authenticated s = true ->
  verb_of text = Some "CWD" ->
  Fs.resolve (fs w) (cwd w)
             (resolve BASE_PATH (current_path s) (arg_of text))
  = inr (d, Fs.EDir) ->
  contains BASE_PATH (Fs.render d) = false ->
  Fs.resolve (fs w) d BASE_PATH = inr (b, Fs.EDir) ->
  iteration BASE_PATH s (Received text) w
  = (add_reply "250 Changed directory: /" (set_cwd b w),
     inr (set_current_path "/" s)).
Proof.
  intros A V X C B.
  rewrite (iteration_received _ _ _ _ _ V), (dispatch_CWD _ _ _ A).
  exact (do_CWD_reset _ _ _ _ _ _ X C B).
Qed.

Lemma cwd_outside_resets_witness :
  (Fs.resolve (fs Example.machine) (cwd Example.machine)
              (resolve Example.root "/pub" (arg_of "CWD //etc"))
   = inr (["etc"], Fs.EDir)
   /\ contains Example.root (Fs.render ["etc"]) = false)
  /\ iteration Example.root (set_current_path "/pub" Example.guest)
               (Received "CWD //etc") Example.machine
     = (add_reply "250 Changed directory: /"
          (set_cwd ["srv"; "ftp"] Example.machine),
        inr Example.guest).
Proof.
  split; [split; reflexivity|].
  exact (cwd_outside_resets Example.root
           (set_current_path "/pub" Example.guest) "CWD //etc"
           Example.machine ["etc"] ["srv"; "ftp"]
           eq_refl eq_refl eq_refl eq_refl eq_refl).
Defined.

(** ** Relative arguments after a change of directory *)

Lemma flat_no_trailing (p : Fs.dirpath) :
  p <> [] -> Forall proper_name p -> endswith_char "/" (flat p) = false.
Proof.
  intros N P. rewrite (app_removelast_last "" N) in P |- *.
  apply Forall_app in P. destruct P as [_ P]. inversion P as [|? ? [E F] _].
  rewrite flat_app, flat_cons.
  change (flat []) with "". rewrite append_empty.
  unfold endswith_char. rewrite last_char_append_cons.
  destruct (last p "") as [|c r] eqn:L; [discriminate E|].
  change (last_char (String "/" (String c r))) with (last_char (String c r)).
  pose proof (last_char_no_char _ _ F) as Q.
  destruct (last_char (String c r)) as [ch|]; [|reflexivity].
  apply Ascii.eqb_neq. congruence.
Qed.

Lemma flat_is_not_empty (p : Fs.dirpath) :
  p <> [] -> is_empty (flat p) = false.
Proof.
  destruct p as [|n r]; [intros N; now elim N|].
  intros _. rewrite flat_cons. reflexivity.
Qed.

Lemma proper_not_separator_first (n t : string) :
  proper_name n -> startswith "/" (n ++ t) = false.
Proof.
  intros [E F]. destruct n as [|c r]; [discriminate E|].
  cbn [no_char] in F. apply andb_true_iff in F. destruct F as [F _].
  apply negb_true_iff, Ascii.eqb_neq in F.
  unfold startswith. cbn [append String.prefix].
  destruct (ascii_dec "/" c); [contradiction | reflexivity].
Qed.

Lemma join_step_plain (p b : string) :
  is_empty p = false ->
  endswith_char "/" p = false ->
  startswith "/" b = false ->
  PosixPath.join_step p b = p ++ "/" ++ b.
Proof.
  intros E T S. unfold PosixPath.join_step. now rewrite S, E, T.
Qed.

(** X18. The virtual path that CWD leaves in the session makes the
    relative arguments that follow resolve in the directory CWD went to.
    When the server root is not [/] and the session is at the virtual path
    of a directory at or below the root, an argument that does not begin
    with a separator resolves to the path of that directory, a separator,
    and the argument. *)
Theorem relative_paths_follow_cwd
        (root_dir rest : Fs.dirpath) (arg : string) :
  root_dir <> [] ->
  Forall proper_name (root_dir ++ rest)%list ->
  mem (head arg) ["/"; "\"] = false ->
  resolve (Fs.render root_dir) (Fs.render rest) arg
  = Fs.render (root_dir ++ rest)%list ++ "/" ++ arg.
Proof.
  intros N P H. pose proof (no_separator_first _ H) as S.
  pose proof P as P'. apply Forall_app in P'. destruct P' as [Pr Pt].
  unfold resolve. rewrite H. unfold PosixPath.join. cbn [fold_left].
  rewrite (render_flat _ N).
  destruct rest as [|n r].
  - rewrite app_nil_r. change (tail (Fs.render [])) with "".
    rewrite (render_flat _ N).
    rewrite (join_step_plain _ "" (flat_is_not_empty _ N)
               (flat_no_trailing _ N Pr) eq_refl).
    unfold PosixPath.join_step. rewrite S.
    replace (endswith_char "/" (flat root_dir ++ "/" ++ "")) with true.
    + rewrite orb_true_r, !append_assoc. reflexivity.
    + unfold endswith_char. change ("/" ++ "") with (String "/" "").
      rewrite last_char_append_cons. reflexivity.
  - assert (M : (root_dir ++ n :: r)%list <> [])
      by (destruct root_dir; discriminate).
    rewrite (render_flat _ M).
    change (Fs.render (n :: r)) with (flat (n :: r)).
    rewrite (flat_cons n r). change (tail (String "/" n ++ flat r))
      with (n ++ flat r).
    inversion Pt as [|? ? Pn _]; subst.
    rewrite (join_step_plain _ _ (flat_is_not_empty _ N)
               (flat_no_trailing _ N Pr)
               (proper_not_separator_first _ _ Pn)).
    replace (flat root_dir ++ "/" ++ n ++ flat r)
      with (flat (root_dir ++ n :: r)%list)
      by (rewrite flat_app, flat_cons; reflexivity).
    exact (join_step_plain _ _ (flat_is_not_empty _ M)
             (flat_no_trailing _ M P) S).
Qed.

Lemma relative_paths_follow_cwd_witness :
  (["srv"; "ftp"] <> [] /\ mem (head "a.txt") ["/"; "\"] = false)
  /\ resolve Example.root "/pub" "a.txt" = "/srv/ftp/pub/a.txt"
  /\ resolve Example.root "/" "a.txt" = "/srv/ftp/a.txt".
Proof.
  split; [split; [discriminate | reflexivity]|]. split.
  - apply (relative_paths_follow_cwd ["srv"; "ftp"] ["pub"] "a.txt");
      [discriminate | | reflexivity].
    repeat constructor.
  - apply (relative_paths_follow_cwd ["srv"; "ftp"] [] "a.txt");
      [discriminate | | reflexivity].
    repeat constructor.
Defined.

(** ** Lines of a supported verb and an argument *)

Lemma take_line_whole (a : string) :
  no_char LF a = true -> Pattern.take_line a = a.
Proof.
  induction a as [|c r IH]; [reflexivity|].
  cbn [no_char Pattern.take_line]. intros H.
  apply andb_true_iff in H. destruct H as [C R].
  apply negb_true_iff in C. rewrite Ascii.eqb_sym in C.
  rewrite C, (IH R). reflexivity.
Qed.

Lemma scan_inside_whole (prev : ascii) (a : string) :
  no_char LF a = true -> Pattern.scan true prev a = [].
Proof.
  revert prev. induction a as [|c r IH]; intros prev H; [reflexivity|].
  cbn [no_char] in H. apply andb_true_iff in H. destruct H as [C R].
  apply negb_true_iff in C. rewrite Ascii.eqb_sym in C.
  cbn [Pattern.scan]. rewrite C. exact (IH c R).
Qed.

Lemma scan_argument (v : ascii) (a : string) :
  is_space v = false ->
  no_char LF a = true ->
  Pattern.scan false v (String " " a)
  = match a with "" => [] | _ => [a] end.
Proof.
  intros V H. cbn [Pattern.scan].
  change (Ascii.eqb " " LF) with false. cbv beta iota. rewrite V.
  destruct a as [|c r]; [reflexivity|].
  pose proof (take_line_whole _ H) as T.
  cbn [no_char] in H. apply andb_true_iff in H. destruct H as [C R].
  apply negb_true_iff in C. rewrite Ascii.eqb_sym in C.
  cbn [Pattern.scan]. rewrite C.
  change (is_space " ") with true. cbv beta iota.
  rewrite T, (scan_inside_whole _ _ R). reflexivity.
Qed.

Lemma findall_line (verb a : string) :
  mem verb SUPPORTED_COMMANDS = true ->
  no_char LF a = true ->
  Pattern.findall (verb ++ String " " a)
  = verb :: match a with "" => [] | _ => [a] end.
Proof.
  intros S H. apply mem_In in S. cbn [In SUPPORTED_COMMANDS] in S.
  destruct S as [<-|[<-|[<-|[<-|[<-|[<-|[<-|[<-|[<-|[<-|[]]]]]]]]]]];
    unfold Pattern.findall; cbv -[Pattern.scan];
    (rewrite scan_argument; [reflexivity | reflexivity | exact H]).
Qed.

(** X19. A line made of a supported verb, one space and a text without a
    line feed is read as that verb with that text, stripped, as its
    argument: spaces inside the argument are kept (a file name of several
    words stays whole), and an empty text gives the empty argument. *)
Theorem supported_line_is_read
        (text verb a : string) :
  mem verb SUPPORTED_COMMANDS = true ->
  strip text = verb ++ String " " a ->
  no_char LF a = true ->
  verb_of text = Some verb /\ arg_of text = strip a.
Proof.
  intros S E H. unfold verb_of, arg_of.
  rewrite E, (findall_line _ _ S H).
  destruct a; split; reflexivity.
Qed.

Lemma supported_line_is_read_witness :
  (mem "RETR" SUPPORTED_COMMANDS = true
   /\ strip "RETR my notes.txt " = "RETR" ++ String " " "my notes.txt"
   /\ no_char LF "my notes.txt" = true)
  /\ verb_of "RETR my notes.txt " = Some "RETR"
  /\ arg_of "RETR my notes.txt " = strip "my notes.txt".
Proof.
  split; [repeat split|].
  exact (supported_line_is_read "RETR my notes.txt " "RETR" "my notes.txt"
           eq_refl eq_refl eq_refl).
Defined.
